(** * Spatial neighbour screening: find_neighbors.py, adaptor.py, interface_factory.py

    A shallow embedding of the three Python modules.

    - Python [float] and numpy [float64] are IEEE-754 binary64: Rocq's
      primitive [float], whose operations are specified by [SpecFloat].
    - A Python [dict] keeps insertion order: an association list with the
      update-in-place / append-at-end behaviour of [d[k] = v].
    - Exceptions and the sequence of calls into the RDKit distance routine
      are threaded through a small error-and-log monad [M]. *)

From Stdlib Require Import List String Ascii Bool Arith ZArith Lia Floats Permutation.
Import ListNotations.

Local Open Scope string_scope.
Local Open Scope list_scope.

(** ** Exceptions (interface_factory.py, lines 7-25, and the builtins that
       numpy, RDKit and the interpreter raise) *)

Inductive ExcClass :=
| UserError                  (* "The user screwed up." *)
| AppError                   (* "The code screwed up." *)
| IneffectiveSettingsError   (* "The code did not find anything but it worked" *)
| KeyError
| ValueError
| TypeError
| AttributeError.

(** [error.__class__.__name__] *)
Definition class_name (c : ExcClass) : string :=
  match c with
  | UserError => "UserError"
  | AppError => "AppError"
  | IneffectiveSettingsError => "IneffectiveSettingsError"
  | KeyError => "KeyError"
  | ValueError => "ValueError"
  | TypeError => "TypeError"
  | AttributeError => "AttributeError"
  end.

(** An exception instance: its class and [str(error)]. *)
Record Exception := mkExc { exc_class : ExcClass; exc_str : string }.

(** ** Geometry as RDKit has it *)

(** [RDGeom::Point3D]: three doubles. *)
Record Point3D := mkPoint { px : float; py : float; pz : float }.

(** [Point3D::operator-] *)
Definition Point3D_sub (p q : Point3D) : Point3D :=
  mkPoint (px p - px q) (py p - py q) (pz p - pz q).

(** [Point3D::length]: [sqrt(x*x + y*y + z*z)] *)
Definition Point3D_length (p : Point3D) : float :=
  PrimFloat.sqrt (px p * px p + py p * py p + pz p * pz p).

(** [Chem.Mol], as far as this program looks at it: the [_Name] property
    and the atom positions of its conformer. *)
Record Mol := mkMol { GetProp_Name : string; positions : list Point3D }.

Definition GetNumAtoms (m : Mol) : nat := List.length (positions m).

(** [Chem.CombineMols(mol1, mol2)]: the atoms of [mol1] followed by the
    atoms of [mol2]. *)
Definition CombineMols (mol1 mol2 : Mol) : Mol :=
  mkMol (GetProp_Name mol1) (positions mol1 ++ positions mol2).

(** ** numpy arrays of rank two *)

(** A two-dimensional [float64] array: its shape and its items. *)
Record NDArray := mkArray { shape0 : nat; shape1 : nat; item : nat -> nat -> float }.

(** [slice(start, stop)]; [stop = None] runs to the end of the axis. *)
Record slice := mkSlice { slice_start : nat; slice_stop : option nat }.

Definition in_slice (s : slice) (i : nat) : bool :=
  Nat.leb (slice_start s) i &&
  match slice_stop s with
  | Some e => Nat.ltb i e
  | None => true
  end.

(** [dm[rows, cols] = v], in place. Indices outside the array are never
    read, so numpy's clamping of the slices to the shape needs no case. *)
Definition setitem (dm : NDArray) (rows cols : slice) (v : float) : NDArray :=
  mkArray (shape0 dm) (shape1 dm)
          (fun i j => if in_slice rows i && in_slice cols j then v else item dm i j).

(** The items in C order, as a reduction over [axis=None] visits them. *)
Definition ravel (a : NDArray) : list float :=
  flat_map (fun i => map (item a i) (seq 0 (shape1 a))) (seq 0 (shape0 a)).

(** [np.nan] *)
Definition np_nan : float := PrimFloat.nan.

(** [np.fmin(x, y)]: the smaller of the two, a NaN losing to a number. *)
Definition fmin (x y : float) : float :=
  if PrimFloat.leb x y || PrimFloat.is_nan y then x else y.

(** Rows of the distance matrix: entry [(i, j)] is [0] on the diagonal and
    the length of [pos_i - pos_j] computed once for [i < j] and stored at
    both [(i, j)] and [(j, i)]. *)
Definition origin : Point3D := mkPoint PrimFloat.zero PrimFloat.zero PrimFloat.zero.

Definition distance_entry (ps : list Point3D) (i j : nat) : float :=
  if Nat.eqb i j then PrimFloat.zero
  else
    let lo := Nat.min i j in
    let hi := Nat.max i j in
    Point3D_length (Point3D_sub (nth lo ps origin) (nth hi ps origin)).

(** ** The error-and-log monad *)

(** What is logged: each call of [Chem.Get3DDistanceMatrix], with the
    molecule it is given. *)
Inductive event := Get3DDistanceMatrix_called (m : Mol).

Definition trace := list event.

(** A computation reads the log so far and returns an exception or a value
    ([inl] / [inr]) with the extended log. *)
Definition M (A : Type) : Type := trace -> (Exception + A) * trace.

Definition ret {A} (a : A) : M A := fun tr => (inr a, tr).

Definition bind {A B} (c : M A) (k : A -> M B) : M B :=
  fun tr =>
    match c tr with
    | (inl e, tr') => (inl e, tr')
    | (inr a, tr') => k a tr'
    end.

Definition raise {A} (c : ExcClass) (msg : string) : M A :=
  fun tr => (inl (mkExc c msg), tr).

Definition tell (ev : event) : M unit := fun tr => (inr tt, tr ++ [ev]).

(** [try: body except (classes) as error: handler(error)]; an exception of
    another class passes through. *)
Definition try_except {A} (body : M A) (catches : Exception -> bool)
           (handler : Exception -> M A) : M A :=
  fun tr =>
    match body tr with
    | (inl e, tr') => if catches e then handler e tr' else (inl e, tr')
    | (inr a, tr') => (inr a, tr')
    end.

Notation "x <- c ;; k" := (bind c (fun x => k))
  (at level 61, c at next level, right associativity).

Fixpoint mapM {A B} (f : A -> M B) (l : list A) : M (list B) :=
  match l with
  | [] => ret []
  | a :: l' => b <- f a ;; bs <- mapM f l' ;; ret (b :: bs)
  end.

(** Running a computation from the empty log. *)
Definition run {A} (c : M A) : (Exception + A) * trace := c [].
Definition outcome {A} (c : M A) : Exception + A := fst (run c).
Definition calls {A} (c : M A) : trace := snd (run c).

(** ** Python dictionaries *)

Definition Dict (V : Type) : Type := list (string * V).

Definition keys {V} (d : Dict V) : list string := map fst d.
Definition items {V} (d : Dict V) : list (string * V) := d.

(** [d.get(k)] *)
Fixpoint dict_get {V} (d : Dict V) (k : string) : option V :=
  match d with
  | [] => None
  | (k', v) :: d' => if String.eqb k k' then Some v else dict_get d' k
  end.

(** [k in d] *)
Definition dict_contains {V} (d : Dict V) (k : string) : bool :=
  match dict_get d k with Some _ => true | None => false end.

(** [d[k] = v]: an existing key keeps its place, a new key goes last. *)
Fixpoint dict_set {V} (d : Dict V) (k : string) (v : V) : Dict V :=
  match d with
  | [] => [(k, v)]
  | (k', v') :: d' =>
    if String.eqb k k' then (k', v) :: d' else (k', v') :: dict_set d' k v
  end.

(** [{k: v for (k, v) in kvs}] *)
Definition dict_of {V} (kvs : list (string * V)) : Dict V :=
  fold_left (fun d kv => dict_set d (fst kv) (snd kv)) kvs [].

(** [repr] of a key, as [str(KeyError(k))] shows it (keys here are plain
    names, without quotes or escapes). *)
Definition repr_str (k : string) : string := "'" ++ k ++ "'".

(** [d[k]] *)
Definition dict_getitem {V} (d : Dict V) (k : string) : M V :=
  match dict_get d k with
  | Some v => ret v
  | None => raise KeyError (repr_str k)
  end.

(** A well-formed dictionary has each key once. *)
Definition dict_wf {V} (d : Dict V) : Prop := NoDup (keys d).

(** ** find_neighbors.py *)

(** [Chem.Get3DDistanceMatrix(mol)]: a fresh square array; the call is
    logged. *)
Definition distance_matrix (mol : Mol) : NDArray :=
  mkArray (GetNumAtoms mol) (GetNumAtoms mol) (distance_entry (positions mol)).

Definition Get3DDistanceMatrix (mol : Mol) : M NDArray :=
  _ <- tell (Get3DDistanceMatrix_called mol) ;;
  ret (distance_matrix mol).

(** [np.nanmin(dm)]: [np.fmin.reduce] over all items. An array without
    items has no identity for the reduction: [ValueError]. An array of NaN
    only gives NaN (with a RuntimeWarning, which is not an exception). *)
Definition nanmin (dm : NDArray) : M float :=
  match ravel dm with
  | [] => raise ValueError
            "zero-size array to reduction operation fmin which has no identity"
  | x :: xs => ret (fold_left fmin xs x)
  end.

(** Lines 31-33, the body of the loop "blank self reflections". *)
Definition blank_self_reflections (firt_other_idx : nat) (dm : NDArray) : NDArray :=
  let dm := setitem dm (mkSlice 0 (Some firt_other_idx))
                       (mkSlice 0 (Some firt_other_idx)) np_nan in
  setitem dm (mkSlice firt_other_idx None) (mkSlice firt_other_idx None) np_nan.

(** [{name: f(name, v) for name, v in d.items()}] *)
Definition dict_comprehension {A B} (f : string -> A -> M B) (d : Dict A) : M (Dict B) :=
  kvs <- mapM (fun kv => b <- f (fst kv) (snd kv) ;; ret (fst kv, b)) (items d) ;;
  ret (dict_of kvs).

Definition get_distances (target_name : string) (hitdex : Dict Mol) : M (Dict float) :=
  target <- dict_getitem hitdex target_name ;;
  let firt_other_idx := GetNumAtoms target in
  distancedex <- dict_comprehension
                   (fun name hit => Get3DDistanceMatrix (CombineMols target hit))
                   hitdex ;;
  (* blank self reflections *)
  let distancedex := map (fun kv => (fst kv, blank_self_reflections firt_other_idx (snd kv)))
                         distancedex in
  distances <- dict_comprehension (fun name dm => nanmin dm) distancedex ;;
  ret distances.

Definition get_close_names (target_name : string) (hitdex : Dict Mol)
           (distance_threshold : float) : M (list string) :=
  distances <- get_distances target_name hitdex ;;
  let close_neighbor_distances :=
      dict_of (filter (fun kv => PrimFloat.leb (snd kv) distance_threshold)
                      (items distances)) in
  ret (keys close_neighbor_distances).

(** ** interface_factory.py *)

Inductive JSAction := show_toast | show_LHS_hits | add_RHS_hits | show_modal | other_JS.

(** [action.name] *)
Definition JSAction_name (a : JSAction) : string :=
  match a with
  | show_toast => "show_toast"
  | show_LHS_hits => "show_LHS_hits"
  | add_RHS_hits => "add_RHS_hits"
  | show_modal => "show_modal"
  | other_JS => "other_JS"
  end.

(** ** adaptor.py *)

(** Line 17: [{hit.GetProp('_Name'): hit for hit in sdfh}] *)
Definition hitdex_of (sdfh : list Mol) : Dict Mol :=
  dict_of (map (fun hit => (GetProp_Name hit, hit)) sdfh).

(** [main]; the SDF block is given as the molecules the supplier yields
    from it, in file order. *)
Definition main (target_name : string) (sdfh : list Mol) (distance_threshold : float)
  : M (list string * JSAction) :=
  let hitdex : Dict Mol := hitdex_of sdfh in
  if negb (dict_contains hitdex target_name) then
    raise UserError ("No such " ++ target_name ++ " target_name")
  else
    close_neighbors <- get_close_names target_name hitdex distance_threshold ;;
    if Nat.eqb (List.length close_neighbors) 0 then
      raise IneffectiveSettingsError "Threshold too strict: no neighbours"
    else
      ret (close_neighbors, show_LHS_hits).

(** [main] called with keyword arguments: [distance_threshold] may be left
    out and then is [3.]. *)
Record main_kwargs := mkKwargs {
  kw_target_name : string;
  kw_sdf_block : list Mol;
  kw_distance_threshold : option float
}.

(** Python values that cross the interface. *)
#[local] Set Warnings "-register-all".
Inductive PyVal :=
| PyNone
| PyStr (s : string)
| PyFloat (f : float)
| PyList (l : list PyVal)
| PyTuple (l : list PyVal)
| PyDict (d : list (string * PyVal))
| PyEnum (a : JSAction).

Definition main_call (inputs : main_kwargs) : M PyVal :=
  out <- main (kw_target_name inputs) (kw_sdf_block inputs)
              (match kw_distance_threshold inputs with
               | Some t => t
               | None => 3%float
               end) ;;
  ret (PyTuple [PyList (map PyStr (fst out)); PyEnum (snd out)]).

(** ** interface_factory.py, the factory *)

(** [OutputType] *)
Record OutputType := mkOutput { status : string; results : PyVal; action : string }.

(** [json.dumps(obj)] succeeds (there is no encoder for an [enum.Enum]
    member: [TypeError], which [is_valid_json] turns into [False]). *)
Fixpoint is_valid_json (obj : PyVal) : bool :=
  match obj with
  | PyNone | PyStr _ | PyFloat _ => true
  | PyList l | PyTuple l => forallb is_valid_json l
  | PyDict d => forallb (fun kv => is_valid_json (snd kv)) d
  | PyEnum _ => false
  end.

(** [type(obj).__name__] *)
Definition type_name (obj : PyVal) : string :=
  match obj with
  | PyNone => "NoneType"
  | PyStr _ => "str"
  | PyFloat _ => "float"
  | PyList _ => "list"
  | PyTuple _ => "tuple"
  | PyDict _ => "dict"
  | PyEnum _ => "JSAction"
  end.

(** What iterating over a value yields, if it can be iterated. *)
Definition py_iter (obj : PyVal) : option (list PyVal) :=
  match obj with
  | PyList l | PyTuple l => Some l
  | PyDict d => Some (map (fun kv => PyStr (fst kv)) d)
  | PyStr s => Some (map (fun c => PyStr (String c EmptyString)) (list_ascii_of_string s))
  | PyNone | PyFloat _ | PyEnum _ => None
  end.

(** [results, action = outputs] *)
Definition unpack2 (outputs : PyVal) : M (PyVal * PyVal) :=
  match py_iter outputs with
  | None => raise TypeError ("cannot unpack non-iterable " ++ type_name outputs ++ " object")
  | Some [] => raise ValueError "not enough values to unpack (expected 2, got 0)"
  | Some [_] => raise ValueError "not enough values to unpack (expected 2, got 1)"
  | Some [a; b] => ret (a, b)
  | Some _ => raise ValueError "too many values to unpack (expected 2)"
  end.

(** [action.name] *)
Definition getattr_name (obj : PyVal) : M string :=
  match obj with
  | PyEnum a => ret (JSAction_name a)
  | _ => raise AttributeError
               (repr_str (type_name obj) ++ " object has no attribute 'name'")
  end.

(** The factory object: the wrapped function, taking its inputs mapping. *)
Record FauxInterfaceFactory (Inputs : Type) := mkFactory { self_fun : Inputs -> M PyVal }.
Arguments mkFactory {Inputs} _.
Arguments self_fun {Inputs} _ _.

(** [except Exception]: every exception class of the model derives from it. *)
Definition is_Exception (e : Exception) : bool := true.

Definition error_sanitized_call {Inputs} (self : FauxInterfaceFactory Inputs)
           (inputs : Inputs) : M PyVal :=
  try_except
    (outputs <- self_fun self inputs ;;
     if is_valid_json outputs then ret outputs
     else raise AppError "Invalid output")
    is_Exception
    (fun error =>
       raise AppError (class_name (exc_class error) ++ ": " ++ exc_str error)).

(** [except (UserError, IneffectiveSettingsError, AppError)] *)
Definition is_interface_error (e : Exception) : bool :=
  match exc_class e with
  | UserError | IneffectiveSettingsError | AppError => true
  | _ => false
  end.

(** [FauxInterfaceFactory.__call__] *)
Definition FauxInterfaceFactory_call {Inputs} (self : FauxInterfaceFactory Inputs)
           (inputs : Inputs) : M OutputType :=
  try_except
    (outputs <- error_sanitized_call self inputs ;;
     ra <- unpack2 outputs ;;
     name <- getattr_name (snd ra) ;;
     ret (mkOutput "success" (fst ra) name))
    is_interface_error
    (fun error =>
       let error_type := class_name (exc_class error) in
       ret (mkOutput "error"
                     (PyDict [("error_type", PyStr error_type);
                              ("msg", PyStr (exc_str error))])
                     (JSAction_name show_toast))).

(** ** Notions used in the statements *)

(** A binary64 value that is NaN or carries the sign [s]. *)
Definition sign_or_nan (s : bool) (x : spec_float) : Prop :=
  match x with
  | S754_nan => True
  | S754_zero s' | S754_infinity s' | S754_finite s' _ _ => s' = s
  end.

(** A float that is NaN or has a plus sign: [+0], a positive number, [+inf]. *)
Definition nonneg_or_nan (f : float) : Prop := sign_or_nan false (Prim2SF f).

(** Coordinates that are numbers: neither NaN nor an infinity. *)
Definition finite_point (p : Point3D) : bool :=
  PrimFloat.is_finite (px p) && PrimFloat.is_finite (py p) && PrimFloat.is_finite (pz p).

Definition finite_mol (m : Mol) : bool := forallb finite_point (positions m).

(** The distance the matrix holds for two atoms. *)
Definition distance (p q : Point3D) : float := Point3D_length (Point3D_sub p q).

(** The array [get_distances] reduces for one pool entry. *)
Definition masked_matrix (target hit : Mol) : NDArray :=
  blank_self_reflections (GetNumAtoms target) (distance_matrix (CombineMols target hit)).

(** The Distance Engine for one candidate: what [get_distances] computes
    for a pool entry [hit], without the log. *)
Definition min_inter_structure_distance (target hit : Mol) : Exception + float :=
  fst (nanmin (masked_matrix target hit) []).

(** [nanmin] of an array that has items. *)
Definition reduce_fmin (l : list float) : float :=
  match l with
  | [] => np_nan
  | x :: xs => fold_left fmin xs x
  end.

(** [name] passes the filter of [get_close_names] for the distances given. *)
Definition qualifies (distances : Dict float) (distance_threshold : float)
           (name : string) : bool :=
  match dict_get distances name with
  | Some d => PrimFloat.leb d distance_threshold
  | None => false
  end.

(** The exception numpy raises for a reduction over no items. *)
Definition ValueError_fmin : Exception :=
  mkExc ValueError "zero-size array to reduction operation fmin which has no identity".

(** The calls [get_distances] makes into RDKit: one per pool entry, in the
    order of the pool. *)
Definition distance_calls (target : Mol) (hitdex : Dict Mol) : trace :=
  map (fun kv => Get3DDistanceMatrix_called (CombineMols target (snd kv))) hitdex.

(** A Structure of the data model: at least one atom, and every
    coordinate a number (a double that is neither NaN nor an infinity), as
    a structure file holds them. *)
Definition Structure (S : Mol) : Prop := positions S <> [] /\ finite_mol S = true.

(** ** Inputs of the scenarios *)

(** One atom at the origin. *)
Definition origin_atom_mol (name : string) : Mol := mkMol name [mkPoint 0 0 0].

(** A molecule without atoms. *)
Definition no_atom_mol (name : string) : Mol := mkMol name [].

Definition pool_with_empty_candidate : Dict Mol :=
  [("T", origin_atom_mol "T"); ("E", no_atom_mol "E")].

(** The target [{(0,0,0), (0,0,5)}] and the candidate [{(0,0,2)}]. *)
Definition scenario3_target : Mol := mkMol "target" [mkPoint 0 0 0; mkPoint 0 0 5].
Definition scenario3_candidate : Mol := mkMol "candidate" [mkPoint 0 0 2].
Definition scenario3_pool : Dict Mol :=
  [("target", scenario3_target); ("candidate", scenario3_candidate)].

(** The target [{(0,0,0)}], "near" [{(1,0,0)}] and "far" [{(10,0,0)}]. *)
Definition scenario1_pool : Dict Mol :=
  [("target", mkMol "target" [mkPoint 0 0 0]);
   ("near", mkMol "near" [mkPoint 1 0 0]);
   ("far", mkMol "far" [mkPoint 10 0 0])].

(** A request for a target that is not in the file, and one with a
    threshold below every distance. *)
Definition request_unknown_target : main_kwargs :=
  mkKwargs "X" [origin_atom_mol "T"] None.

Definition request_negative_threshold : main_kwargs :=
  mkKwargs "T" [origin_atom_mol "T"] (Some (-1)%float).

(** ** The rest of the three modules *)

(** find_neighbors.py, [read_file] (lines 16-23): the same comprehension
    over the molecules that the supplier opened on the file yields. *)
Definition read_file (sdfh : list Mol) : Dict Mol :=
  dict_of (map (fun hit => (GetProp_Name hit, hit)) sdfh).

(** The molecule a name ends up bound to: the last one of the file that
    carries it. *)
Definition last_named (name : string) (sdfh : list Mol) : option Mol :=
  fold_left (fun found hit => if String.eqb name (GetProp_Name hit) then Some hit else found)
            sdfh None.

(** The classes an annotation of the wrapped function can name: the three
    that [python2html_mapping] has as keys, and any other, given by its
    [repr]. *)
Inductive PyType := ty_str | ty_int | ty_float | ty_other (repr : string).

(** The double quote character. *)
Definition dquote : string := String (ascii_of_nat 34) EmptyString.

(** [python2html_mapping[value].format(name=name)] for the three keys of
    the mapping (lines 94-97); the templates hold the one field [{name}],
    at their end and between double quotes. *)
Definition python2html_mapping (value : PyType) : option (string -> string) :=
  match value with
  | ty_str =>
    Some (fun name : string => ("input type=" ++ dquote ++ "text" ++ dquote ++
                      " name=" ++ dquote ++ name ++ dquote)%string)
  | ty_int =>
    Some (fun name : string => ("input type=" ++ dquote ++ "number" ++ dquote ++
                      " step=" ++ dquote ++ "1" ++ dquote ++
                      " name=" ++ dquote ++ name ++ dquote)%string)
  | ty_float =>
    Some (fun name : string => ("input type=" ++ dquote ++ "number" ++ dquote ++
                      " name=" ++ dquote ++ name ++ dquote)%string)
  | ty_other _ => None
  end.

(** [repr(value)], as [str(KeyError(value))] shows it. *)
Definition PyType_repr (value : PyType) : string :=
  match value with
  | ty_str => "<class 'str'>"
  | ty_int => "<class 'int'>"
  | ty_float => "<class 'float'>"
  | ty_other r => r
  end.

(** [FauxInterfaceFactory.front_end_fields] (lines 99-102), given
    [self.fun.__annotations__]. The [if] of the comprehension is tested
    before the value is computed. *)
Definition front_end_fields (annotations : Dict PyType) : M (Dict string) :=
  dict_comprehension
    (fun key value =>
       match python2html_mapping value with
       | Some template => ret (template key)
       | None => raise KeyError (PyType_repr value)
       end)
    (filter (fun kv => negb (String.eqb (fst kv) "return")) (items annotations)).

(** [main.__annotations__] *)
Definition main_annotations : Dict PyType :=
  [("target_name", ty_str);
   ("sdf_block", ty_str);
   ("distance_threshold", ty_float);
   ("return", ty_other "typing.Tuple[typing.List[str], interface_factory.JSAction]")].

(** A annotation type the mapping has a template for. *)
Definition supported (value : PyType) : bool :=
  match python2html_mapping value with Some _ => true | None => false end.

(** The text a supported type gives for a field name. *)
Definition html_field (value : PyType) (name : string) : string :=
  match python2html_mapping value with
  | Some template => template name
  | None => EmptyString
  end.

(** The annotations that make fields: all but ["return"]. *)
Definition field_annotations (annotations : Dict PyType) : Dict PyType :=
  filter (fun kv => negb (String.eqb (fst kv) "return")) (items annotations).

(** Exception classes that [__call__] lets through. *)
Definition escapes_call (c : ExcClass) : bool :=
  match c with
  | TypeError | ValueError | AttributeError => true
  | _ => false
  end.

(** A file in which two molecules are named alike. *)
Definition file_with_duplicate : list Mol :=
  [mkMol "a" [mkPoint 0 0 0]; mkMol "b" [mkPoint 1 0 0]; mkMol "a" [mkPoint 9 0 0]].

(** * Properties *)

(** ** Binary64 arithmetic, on the specification *)

Lemma binary_round_aux_sign s m e l :
  sign_or_nan s (binary_round_aux prec emax s m e l).
Proof.
  unfold binary_round_aux.
  destruct (shr_fexp prec emax m e l) as [mrs' e'].
  destruct (shr_fexp prec emax _ e' loc_Exact) as [mrs'' e''].
  destruct (shr_m mrs''); simpl; auto.
  destruct (Z.leb e'' _); simpl; auto.
Qed.

Lemma binary_round_sign s m e :
  sign_or_nan s (binary_round prec emax s m e).
Proof.
  unfold binary_round.
  destruct (shl_align _ _ _) as [mz ez].
  apply binary_round_aux_sign.
Qed.

Lemma SFmul_self_sign x : sign_or_nan false (SF64mul x x).
Proof.
  destruct x as [s|s| |s m e]; simpl; auto using xorb_nilpotent.
  rewrite xorb_nilpotent. apply binary_round_aux_sign.
Qed.

Lemma SFadd_sign x y :
  sign_or_nan false x -> sign_or_nan false y -> sign_or_nan false (SF64add x y).
Proof.
  destruct x as [sx|sx| |sx mx ex]; destruct y as [sy|sy| |sy my ey];
    simpl; intros Hx Hy; subst; simpl; auto.
  apply binary_round_sign.
Qed.

Lemma SFsqrt_sign x : sign_or_nan false x -> sign_or_nan false (SF64sqrt x).
Proof.
  destruct x as [s|s| |s m e]; simpl; intros H; subst; simpl; auto.
  destruct (SFsqrt_core_binary prec emax (Zpos m) e) as [[mz ez] lz].
  apply binary_round_aux_sign.
Qed.

Lemma SFsub_diag x :
  match x with S754_zero _ | S754_finite _ _ _ => True | _ => False end ->
  SF64sub x x = S754_zero false.
Proof.
  destruct x as [s|s| |s m e]; simpl; intros H; try contradiction.
  - destruct s; reflexivity.
  - rewrite Z.sub_diag. reflexivity.
Qed.

Lemma binary_round_aux_opp s m e l :
  binary_round_aux prec emax (negb s) m e l = SFopp (binary_round_aux prec emax s m e l).
Proof.
  unfold binary_round_aux.
  destruct (shr_fexp prec emax m e l) as [mrs' e'].
  destruct (shr_fexp prec emax _ e' loc_Exact) as [mrs'' e''].
  destruct (shr_m mrs''); simpl; auto.
  destruct (Z.leb e'' _); simpl; auto.
Qed.

Lemma binary_normalize_opp z e :
  binary_normalize prec emax (Z.opp z) e false =
  match z with Z0 => S754_zero false | _ => SFopp (binary_normalize prec emax z e false) end.
Proof.
  destruct z; simpl; auto; unfold binary_round;
    destruct (shl_align _ _ _) as [mz ez].
  - apply (binary_round_aux_opp false).
  - rewrite <- (binary_round_aux_opp true). reflexivity.
Qed.

Lemma SFmul_opp_opp x : SF64mul (SFopp x) (SFopp x) = SF64mul x x.
Proof.
  destruct x as [s|s| |s m e]; simpl; auto; rewrite ?xorb_nilpotent; auto.
Qed.

Lemma SFsub_square_sym x y :
  SF64mul (SF64sub x y) (SF64sub x y) = SF64mul (SF64sub y x) (SF64sub y x).
Proof.
  destruct x as [sx|sx| |sx mx ex]; destruct y as [sy|sy| |sy my ey];
    try (destruct sx); try (destruct sy); try reflexivity.
  all: unfold SF64sub, SFsub; rewrite (Z.min_comm ey ex);
    match goal with
    | |- context [binary_normalize _ _ (?a - ?b)%Z ?e false] =>
      replace (b - a)%Z with (Z.opp (a - b)) by lia;
      rewrite (binary_normalize_opp (a - b)%Z e);
      destruct (a - b)%Z eqn:E; [reflexivity | | ];
      rewrite SFmul_opp_opp; reflexivity
    end.
Qed.

(** ** The order of binary64 *)

Ltac finite_cmp :=
  repeat match goal with
  | |- context [Z.compare ?a ?b] => destruct (Z.compare_spec a b)
  | H : context [Z.compare ?a ?b] |- _ => destruct (Z.compare_spec a b)
  | |- context [Pos.compare_cont Eq ?a ?b] =>
    change (Pos.compare_cont Eq a b) with (Pos.compare a b) in *;
    destruct (Pos.compare_spec a b)
  | H : context [Pos.compare_cont Eq ?a ?b] |- _ =>
    change (Pos.compare_cont Eq a b) with (Pos.compare a b) in *;
    destruct (Pos.compare_spec a b)
  end; cbn [CompOpp] in *; try discriminate; try reflexivity; try lia.

Lemma SFleb_ltb_trans x y z :
  SFleb x y = true -> SFltb y z = true -> SFleb x z = true.
Proof.
  unfold SFleb, SFltb.
  destruct x as [sx|sx| |sx mx ex]; destruct y as [sy|sy| |sy my ey];
    destruct z as [sz|sz| |sz mz ez];
    try destruct sx; try destruct sy; try destruct sz; simpl;
    try discriminate; try reflexivity;
    intros H1 H2; finite_cmp.
Qed.

Lemma SFleb_trans x y z :
  SFleb x y = true -> SFleb y z = true -> SFleb x z = true.
Proof.
  unfold SFleb.
  destruct x as [sx|sx| |sx mx ex]; destruct y as [sy|sy| |sy my ey];
    destruct z as [sz|sz| |sz mz ez];
    try destruct sx; try destruct sy; try destruct sz; simpl;
    try discriminate; try reflexivity;
    intros H1 H2; finite_cmp.
Qed.


Lemma SFleb_total x y :
  x <> S754_nan -> y <> S754_nan -> SFleb x y = true \/ SFleb y x = true.
Proof.
  unfold SFleb.
  destruct x as [sx|sx| |sx mx ex]; destruct y as [sy|sy| |sy my ey];
    try destruct sx; try destruct sy; simpl; intros Hx Hy;
    try congruence; auto;
    finite_cmp; auto.
Qed.

Lemma SFleb_antisym x y :
  sign_or_nan false x -> sign_or_nan false y ->
  SFleb x y = true -> SFleb y x = true -> x = y.
Proof.
  unfold SFleb.
  destruct x as [sx|sx| |sx mx ex]; destruct y as [sy|sy| |sy my ey];
    simpl; intros Hx Hy; subst; simpl; try discriminate; try reflexivity;
    intros H1 H2; finite_cmp.
  all: subst; try reflexivity; try lia.
Qed.

(** ** Primitive floats *)

Lemma Prim2SF_zero : Prim2SF PrimFloat.zero = S754_zero false.
Proof. reflexivity. Qed.

Lemma Prim2SF_nan : Prim2SF PrimFloat.nan = S754_nan.
Proof. reflexivity. Qed.

Lemma Prim2SF_infinity : Prim2SF PrimFloat.infinity = S754_infinity false.
Proof. reflexivity. Qed.

Lemma SFcompare_refl x : x <> S754_nan -> SFcompare x x = Some Eq.
Proof.
  destruct x as [s|s| |s m e]; try destruct s; simpl; try congruence; intros _.
  all: rewrite Z.compare_refl; change (Pos.compare_cont Eq m m) with (Pos.compare m m);
    rewrite Pos.compare_refl; reflexivity.
Qed.

Lemma is_nan_spec f : PrimFloat.is_nan f = true <-> Prim2SF f = S754_nan.
Proof.
  unfold PrimFloat.is_nan. rewrite eqb_spec. unfold SFeqb.
  destruct (Prim2SF f) as [s|s| |s m e] eqn:E.
  all: try (rewrite SFcompare_refl by discriminate; simpl; split; discriminate).
  simpl. split; reflexivity.
Qed.

Lemma is_nan_false f : PrimFloat.is_nan f = false <-> Prim2SF f <> S754_nan.
Proof.
  rewrite <- is_nan_spec. destruct (PrimFloat.is_nan f); split; congruence.
Qed.

Lemma nan_unique f : PrimFloat.is_nan f = true -> f = PrimFloat.nan.
Proof.
  intros H. apply Prim2SF_inj. rewrite Prim2SF_nan. now apply is_nan_spec.
Qed.

Lemma leb_nan_r x y : PrimFloat.is_nan y = true -> PrimFloat.leb x y = false.
Proof.
  intros H. apply is_nan_spec in H. rewrite leb_spec, H. unfold SFleb.
  destruct (Prim2SF x); reflexivity.
Qed.

Lemma leb_nan_l x y : PrimFloat.is_nan x = true -> PrimFloat.leb x y = false.
Proof.
  intros H. apply is_nan_spec in H. rewrite leb_spec, H. reflexivity.
Qed.

Lemma leb_not_nan x y : PrimFloat.leb x y = true ->
  PrimFloat.is_nan x = false /\ PrimFloat.is_nan y = false.
Proof.
  intros H. split.
  - destruct (PrimFloat.is_nan x) eqn:E; auto. rewrite leb_nan_l in H; auto.
  - destruct (PrimFloat.is_nan y) eqn:E; auto. rewrite leb_nan_r in H; auto.
Qed.

Lemma leb_trans x y z :
  PrimFloat.leb x y = true -> PrimFloat.leb y z = true -> PrimFloat.leb x z = true.
Proof. rewrite !leb_spec. apply SFleb_trans. Qed.

Lemma leb_ltb_trans x y z :
  PrimFloat.leb x y = true -> PrimFloat.ltb y z = true -> PrimFloat.leb x z = true.
Proof. rewrite !leb_spec, ltb_spec. apply SFleb_ltb_trans. Qed.

Lemma leb_total x y :
  PrimFloat.is_nan x = false -> PrimFloat.is_nan y = false ->
  PrimFloat.leb x y = true \/ PrimFloat.leb y x = true.
Proof.
  rewrite !is_nan_false, !leb_spec. apply SFleb_total.
Qed.

Lemma leb_antisym x y :
  nonneg_or_nan x -> nonneg_or_nan y ->
  PrimFloat.leb x y = true -> PrimFloat.leb y x = true -> x = y.
Proof.
  rewrite !leb_spec. intros. apply Prim2SF_inj. now apply SFleb_antisym.
Qed.

Lemma eqb_leb x y : PrimFloat.eqb x y = true -> PrimFloat.leb x y = true.
Proof.
  rewrite eqb_spec, leb_spec. unfold SFeqb, SFleb.
  destruct (SFcompare _ _) as [[]|]; congruence.
Qed.

Lemma zero_leb_nonneg x :
  nonneg_or_nan x -> PrimFloat.is_nan x = false -> PrimFloat.leb PrimFloat.zero x = true.
Proof.
  unfold nonneg_or_nan. rewrite is_nan_false, leb_spec, Prim2SF_zero.
  destruct (Prim2SF x) as [s|s| |s m e]; simpl; intros; subst; try reflexivity; congruence.
Qed.

Lemma is_finite_spec f :
  PrimFloat.is_finite f = true ->
  match Prim2SF f with S754_zero _ | S754_finite _ _ _ => True | _ => False end.
Proof.
  unfold PrimFloat.is_finite, PrimFloat.is_infinity. intros H.
  apply negb_true_iff, orb_false_iff in H. destruct H as [Hn Hi].
  apply is_nan_false in Hn.
  rewrite eqb_spec, abs_spec, Prim2SF_infinity in Hi.
  destruct (Prim2SF f) as [s|s| |s m e]; auto; try congruence.
  discriminate Hi.
Qed.

Lemma sub_diag f : PrimFloat.is_finite f = true -> (f - f)%float = PrimFloat.zero.
Proof.
  intros H. apply Prim2SF_inj. rewrite sub_spec, Prim2SF_zero.
  apply SFsub_diag. now apply is_finite_spec.
Qed.

Lemma Point3D_length_nonneg p : nonneg_or_nan (Point3D_length p).
Proof.
  unfold nonneg_or_nan, Point3D_length.
  rewrite sqrt_spec, !add_spec, !mul_spec.
  apply SFsqrt_sign. repeat apply SFadd_sign; apply SFmul_self_sign.
Qed.

Lemma distance_self p :
  finite_point p = true -> Point3D_length (Point3D_sub p p) = PrimFloat.zero.
Proof.
  unfold finite_point. intros H.
  apply andb_true_iff in H. destruct H as [H Hz].
  apply andb_true_iff in H. destruct H as [Hx Hy].
  unfold Point3D_length, Point3D_sub; simpl.
  rewrite !sub_diag by assumption. reflexivity.
Qed.

Lemma square_sub_sym x y : ((x - y) * (x - y))%float = ((y - x) * (y - x))%float.
Proof.
  apply Prim2SF_inj. rewrite !mul_spec, !sub_spec. apply SFsub_square_sym.
Qed.

Lemma distance_sym p q :
  Point3D_length (Point3D_sub p q) = Point3D_length (Point3D_sub q p).
Proof.
  unfold Point3D_length, Point3D_sub; simpl.
  rewrite (square_sub_sym (px p)), (square_sub_sym (py p)), (square_sub_sym (pz p)).
  reflexivity.
Qed.

(** ** [np.fmin] and its reduction *)

Lemma leb_refl x : PrimFloat.is_nan x = false -> PrimFloat.leb x x = true.
Proof.
  intros H. destruct (leb_total x x H H); assumption.
Qed.

Lemma fmin_cases x y :
  (fmin x y = x /\ (PrimFloat.leb x y = true \/ PrimFloat.is_nan y = true)) \/
  (fmin x y = y /\ PrimFloat.leb x y = false /\ PrimFloat.is_nan y = false).
Proof.
  unfold fmin.
  destruct (PrimFloat.leb x y) eqn:L; simpl; auto.
  destruct (PrimFloat.is_nan y) eqn:N; simpl; auto.
Qed.

(** The reduction returns an item of the list; it is NaN only when every
    item is, and otherwise it is a number below every number of the list. *)
Lemma fold_fmin_spec xs : forall x,
  let r := fold_left fmin xs x in
  In r (x :: xs) /\
  ((PrimFloat.is_nan r = true /\ forall y, In y (x :: xs) -> PrimFloat.is_nan y = true) \/
   (PrimFloat.is_nan r = false /\
    forall y, In y (x :: xs) -> PrimFloat.is_nan y = false -> PrimFloat.leb r y = true)).
Proof.
  induction xs as [|a xs IH]; intros x; cbn zeta.
  - simpl. split; [now left|].
    destruct (PrimFloat.is_nan x) eqn:N.
    + left. split; auto. intros y [<-|[]]; assumption.
    + right. split; auto. intros y [<-|[]] _. now apply leb_refl.
  - cbn [fold_left]. specialize (IH (fmin x a)). cbn zeta in IH.
    destruct IH as [Hin Hmin].
    set (r := fold_left fmin xs (fmin x a)) in *.
    split.
    + destruct Hin as [Hin|Hin]; [|right; right; exact Hin].
      destruct (fmin_cases x a) as [[E _]|[E _]]; rewrite E in Hin; subst r;
        rewrite <- Hin; simpl; auto.
    + destruct Hmin as [[Hr Hall]|[Hr Hle]].
      * left. split; auto.
        assert (Hm : PrimFloat.is_nan (fmin x a) = true) by (apply Hall; now left).
        intros y [<-|[<-|Hy]]; [| |apply Hall; now right].
        -- destruct (fmin_cases x a) as [[E _]|[E [_ Na]]]; rewrite E in Hm; congruence.
        -- destruct (fmin_cases x a) as [[E [L|Na]]|[E [_ Na]]]; rewrite E in Hm.
           ++ apply leb_not_nan in L. destruct L; congruence.
           ++ exact Na.
           ++ exact Hm.
      * right. split; auto.
        intros y Hy Ny.
        destruct Hy as [<-|[<-|Hy]]; [| |apply Hle; [now right|exact Ny]].
        -- (* y = x *)
           destruct (fmin_cases x a) as [[E _]|[E [L Na]]].
           ++ apply Hle; [left; exact E|exact Ny].
           ++ apply leb_trans with a.
              ** apply Hle; [left; exact E|exact Na].
              ** destruct (leb_total x a Ny Na); [congruence|assumption].
        -- (* y = a *)
           destruct (fmin_cases x a) as [[E [L|Na]]|[E _]].
           ++ apply leb_trans with x; [|exact L].
              apply Hle; [left; exact E|]. apply leb_not_nan in L. tauto.
           ++ congruence.
           ++ apply Hle; [left; exact E|exact Ny].
Qed.

(** Two lists with the same items, all NaN or with a plus sign, reduce to
    the same float. *)
Lemma reduce_fmin_ext l1 l2 :
  l1 <> [] ->
  (forall y, In y l1 -> nonneg_or_nan y) ->
  (forall y, In y l1 <-> In y l2) ->
  reduce_fmin l1 = reduce_fmin l2.
Proof.
  intros Hne Hnn Heq.
  destruct l1 as [|x1 xs1]; [congruence|].
  destruct l2 as [|x2 xs2]; [exfalso; apply (proj1 (Heq x1)); now left|].
  unfold reduce_fmin.
  destruct (fold_fmin_spec xs1 x1) as [In1 P1].
  destruct (fold_fmin_spec xs2 x2) as [In2 P2].
  set (r1 := fold_left fmin xs1 x1) in *.
  set (r2 := fold_left fmin xs2 x2) in *.
  destruct P1 as [[N1 A1]|[N1 L1]]; destruct P2 as [[N2 A2]|[N2 L2]].
  - rewrite (nan_unique r1 N1), (nan_unique r2 N2). reflexivity.
  - apply Heq, A1 in In2. congruence.
  - apply Heq, A2 in In1. congruence.
  - apply leb_antisym.
    + apply Hnn, In1.
    + apply Hnn, Heq, In2.
    + apply L1; [apply Heq, In2|exact N2].
    + apply L2; [apply Heq, In1|exact N1].
Qed.

(** A list of such floats that holds [+0] reduces to [+0]. *)
Lemma reduce_fmin_zero l :
  (forall y, In y l -> nonneg_or_nan y) ->
  In PrimFloat.zero l ->
  reduce_fmin l = PrimFloat.zero.
Proof.
  intros Hnn Hz.
  destruct l as [|x xs]; [contradiction|]. unfold reduce_fmin.
  destruct (fold_fmin_spec xs x) as [Hin P].
  set (r := fold_left fmin xs x) in *.
  assert (Nz : PrimFloat.is_nan PrimFloat.zero = false) by reflexivity.
  destruct P as [[N A]|[N L]].
  - apply A in Hz. congruence.
  - apply leb_antisym.
    + apply Hnn, Hin.
    + apply Hnn, Hz.
    + apply L; assumption.
    + apply zero_leb_nonneg; [apply Hnn, Hin|exact N].
Qed.

(** ** Arrays *)

Lemma in_ravel a e :
  In e (ravel a) <-> exists i j, i < shape0 a /\ j < shape1 a /\ e = item a i j.
Proof.
  unfold ravel. rewrite in_flat_map. split.
  - intros [i [Hi He]]. apply in_map_iff in He. destruct He as [j [He Hj]].
    apply in_seq in Hi. apply in_seq in Hj.
    exists i, j. repeat split; [lia|lia|now symmetry].
  - intros [i [j [Hi [Hj He]]]]. exists i. split.
    + apply in_seq. lia.
    + apply in_map_iff. exists j. split; [now symmetry|apply in_seq; lia].
Qed.

Lemma ravel_nil a : ravel a = [] <-> shape0 a = 0 \/ shape1 a = 0.
Proof.
  split.
  - intros H. destruct (shape0 a) eqn:E0; auto. destruct (shape1 a) eqn:E1; auto.
    exfalso. assert (In (item a 0 0) (ravel a)).
    { apply in_ravel. exists 0, 0. repeat split; lia. }
    rewrite H in H0. contradiction.
  - intros H. destruct (ravel a) as [|e l] eqn:E; auto.
    assert (Hin : In e (ravel a)) by (rewrite E; now left).
    apply in_ravel in Hin. destruct Hin as [i [j [Hi [Hj _]]]]. lia.
Qed.

Lemma masked_item target hit i j :
  item (masked_matrix target hit) i j =
  if (Nat.ltb i (GetNumAtoms target) && Nat.ltb j (GetNumAtoms target)) ||
     (Nat.leb (GetNumAtoms target) i && Nat.leb (GetNumAtoms target) j)
  then np_nan
  else distance_entry (positions target ++ positions hit) i j.
Proof.
  unfold masked_matrix, blank_self_reflections, setitem, in_slice; simpl.
  rewrite !andb_true_r.
  destruct (Nat.leb (GetNumAtoms target) i && Nat.leb (GetNumAtoms target) j) eqn:E.
  - now rewrite orb_true_r.
  - rewrite orb_false_r. reflexivity.
Qed.

Lemma masked_shape target hit :
  shape0 (masked_matrix target hit) = GetNumAtoms target + GetNumAtoms hit /\
  shape1 (masked_matrix target hit) = GetNumAtoms target + GetNumAtoms hit.
Proof.
  unfold masked_matrix, blank_self_reflections, setitem, distance_matrix, CombineMols,
    GetNumAtoms; simpl.
  rewrite length_app. auto.
Qed.

(** What the masked array holds: NaN (when it has an item at all) and the
    distances between an atom of the target and an atom of the candidate. *)
Lemma in_masked target hit e :
  In e (ravel (masked_matrix target hit)) <->
  (e = np_nan /\ 0 < GetNumAtoms target + GetNumAtoms hit) \/
  (exists a b, In a (positions target) /\ In b (positions hit) /\ e = distance a b).
Proof.
  rewrite in_ravel. destruct (masked_shape target hit) as [-> ->].
  unfold GetNumAtoms.
  set (A := positions target). set (B := positions hit).
  split.
  - intros [i [j [Hi [Hj He]]]]. rewrite masked_item in He.
    fold A B in He. unfold GetNumAtoms in He. fold A in He.
    destruct (Nat.ltb_spec i (List.length A)) as [Li|Li];
      destruct (Nat.ltb_spec j (List.length A)) as [Lj|Lj]; simpl in He.
    + left. split; [exact He|lia].
    + right. destruct (Nat.leb_spec (List.length A) i); [lia|]. simpl in He.
      unfold distance_entry in He.
      destruct (Nat.eqb_spec i j); [lia|].
      rewrite Nat.min_l, Nat.max_r in He by lia.
      rewrite app_nth1, app_nth2 in He by lia.
      exists (nth i A origin), (nth (j - List.length A) B origin).
      repeat split; [apply nth_In; lia|apply nth_In; lia|exact He].
    + right. destruct (Nat.leb_spec (List.length A) j); [lia|].
      rewrite andb_false_r in He. simpl in He.
      unfold distance_entry in He.
      destruct (Nat.eqb_spec i j); [lia|].
      rewrite Nat.min_r, Nat.max_l in He by lia.
      rewrite app_nth1, app_nth2 in He by lia.
      exists (nth j A origin), (nth (i - List.length A) B origin).
      repeat split; [apply nth_In; lia|apply nth_In; lia|exact He].
    + left. destruct (Nat.leb_spec (List.length A) i); [|lia].
      destruct (Nat.leb_spec (List.length A) j); [|lia]. simpl in He.
      split; [exact He|lia].
  - intros [[He Hpos]|[a [b [Ha [Hb He]]]]].
    + exists 0, 0. repeat split; try lia. rewrite masked_item.
      unfold GetNumAtoms. fold A.
      destruct (List.length A) eqn:E; simpl; exact He.
    + destruct (In_nth A a origin Ha) as [i [Hi Ea]].
      destruct (In_nth B b origin Hb) as [j [Hj Eb]].
      exists i, (List.length A + j). repeat split; try lia.
      rewrite masked_item. unfold GetNumAtoms. fold A B.
      destruct (Nat.ltb_spec (List.length A + j) (List.length A)); [lia|].
      rewrite andb_false_r. simpl.
      destruct (Nat.leb_spec (List.length A) i); [lia|]. simpl.
      unfold distance_entry.
      destruct (Nat.eqb_spec i (List.length A + j)); [lia|].
      rewrite Nat.min_l, Nat.max_r by lia.
      rewrite app_nth1, app_nth2 by lia.
      replace (List.length A + j - List.length A) with j by lia.
      rewrite Ea, Eb. exact He.
Qed.

Lemma masked_nonneg target hit y :
  In y (ravel (masked_matrix target hit)) -> nonneg_or_nan y.
Proof.
  intros H. apply in_masked in H.
  destruct H as [[-> _]|[a [b [_ [_ ->]]]]].
  - exact I.
  - apply Point3D_length_nonneg.
Qed.

(** ** Dictionaries *)

Lemma dict_set_new {V} (d : Dict V) k v :
  ~ In k (keys d) -> dict_set d k v = d ++ [(k, v)].
Proof.
  induction d as [|[k' v'] d IH]; simpl; intros H; auto.
  destruct (String.eqb_spec k k') as [->|Hne]; [exfalso; auto|].
  rewrite IH; auto.
Qed.

Lemma keys_dict_set {V} (d : Dict V) k v k0 :
  In k0 (keys (dict_set d k v)) <-> In k0 (keys d) \/ k0 = k.
Proof.
  induction d as [|[k' v'] d IH]; simpl.
  - intuition.
  - destruct (String.eqb_spec k k') as [->|Hne]; simpl.
    + intuition.
    + rewrite IH. intuition.
Qed.

Lemma dict_set_wf {V} (d : Dict V) k v : dict_wf d -> dict_wf (dict_set d k v).
Proof.
  unfold dict_wf. induction d as [|[k' v'] d IH]; simpl; intros H.
  - constructor; [intros []|constructor].
  - inversion H as [|? ? Hn Hd]; subst.
    destruct (String.eqb_spec k k') as [->|Hne]; simpl.
    + constructor; assumption.
    + constructor; [|apply IH; assumption].
      intros Hin. apply (keys_dict_set d k v k') in Hin. destruct Hin; [auto|congruence].
Qed.

Lemma fold_dict_set_keys {V} (kvs : list (string * V)) : forall acc k,
  In k (keys (fold_left (fun d kv => dict_set d (fst kv) (snd kv)) kvs acc)) <->
  In k (keys acc) \/ In k (map fst kvs).
Proof.
  induction kvs as [|[k' v'] kvs IH]; intros acc k; simpl.
  - intuition.
  - rewrite IH, keys_dict_set. simpl. intuition.
Qed.

Lemma fold_dict_set_wf {V} (kvs : list (string * V)) : forall acc,
  dict_wf acc -> dict_wf (fold_left (fun d kv => dict_set d (fst kv) (snd kv)) kvs acc).
Proof.
  induction kvs as [|[k' v'] kvs IH]; intros acc H; simpl; auto.
  apply IH, dict_set_wf, H.
Qed.

Lemma in_keys_dict_of {V} (kvs : list (string * V)) k :
  In k (keys (dict_of kvs)) <-> In k (map fst kvs).
Proof.
  unfold dict_of. rewrite fold_dict_set_keys. simpl. intuition.
Qed.

Lemma dict_of_wf {V} (kvs : list (string * V)) : dict_wf (dict_of kvs).
Proof.
  apply fold_dict_set_wf. constructor.
Qed.

Lemma fold_dict_set_nodup {V} (kvs : list (string * V)) : forall acc,
  NoDup (map fst (acc ++ kvs)) ->
  fold_left (fun d kv => dict_set d (fst kv) (snd kv)) kvs acc = acc ++ kvs.
Proof.
  induction kvs as [|[k v] kvs IH]; intros acc H; simpl.
  - now rewrite app_nil_r.
  - rewrite dict_set_new.
    + rewrite IH; rewrite <- app_assoc; simpl; auto.
    + rewrite map_app in H. simpl in H. apply NoDup_remove_2 in H.
      intros Hin. apply H. apply in_or_app. left. exact Hin.
Qed.

(** A comprehension over pairs whose keys differ keeps the pairs as they
    come. *)
Lemma dict_of_nodup {V} (kvs : list (string * V)) :
  NoDup (map fst kvs) -> dict_of kvs = kvs.
Proof.
  intros H. unfold dict_of. now rewrite fold_dict_set_nodup.
Qed.

Lemma dict_get_in {V} (d : Dict V) k v : dict_get d k = Some v -> In (k, v) d.
Proof.
  induction d as [|[k' v'] d IH]; simpl; [discriminate|].
  destruct (String.eqb_spec k k') as [->|Hne].
  - intros [= ->]. now left.
  - intros H. right. auto.
Qed.

Lemma dict_get_none {V} (d : Dict V) k : dict_get d k = None <-> ~ In k (keys d).
Proof.
  induction d as [|[k' v'] d IH]; simpl.
  - intuition.
  - destruct (String.eqb_spec k k') as [->|Hne].
    + split; [discriminate|]. intros H. exfalso. apply H. now left.
    + rewrite IH. intuition congruence.
Qed.

Lemma dict_contains_spec {V} (d : Dict V) k : dict_contains d k = true <-> In k (keys d).
Proof.
  unfold dict_contains. destruct (dict_get d k) eqn:E.
  - split; auto. intros _. apply dict_get_in in E.
    apply in_map_iff. exists (k, v). auto.
  - apply dict_get_none in E. split; [discriminate|contradiction].
Qed.

Lemma dict_get_map {A B} (g : string -> A -> B) (d : Dict A) k :
  dict_get (map (fun kv => (fst kv, g (fst kv) (snd kv))) d) k =
  option_map (g k) (dict_get d k).
Proof.
  induction d as [|[k' v'] d IH]; simpl; auto.
  destruct (String.eqb_spec k k') as [->|Hne]; auto.
Qed.

(** Filtering the items on their values is filtering the keys on the value
    each key has. *)
Lemma keys_filter_items {V} (p : V -> bool) (d : Dict V) :
  dict_wf d ->
  keys (filter (fun kv => p (snd kv)) d) =
  filter (fun k => match dict_get d k with Some v => p v | None => false end) (keys d).
Proof.
  unfold dict_wf. induction d as [|[k v] d IH]; simpl; auto.
  intros H. inversion H as [|? ? Hn Hd]; subst.
  rewrite String.eqb_refl.
  assert (E : filter (fun k0 => match (if String.eqb k0 k then Some v else dict_get d k0) with
                                | Some v0 => p v0 | None => false end) (keys d) =
              filter (fun k0 => match dict_get d k0 with Some v0 => p v0 | None => false end)
                     (keys d)).
  { apply filter_ext_in. intros k0 Hk0.
    destruct (String.eqb_spec k0 k) as [->|Hne]; [contradiction|reflexivity]. }
  rewrite E. destruct (p v); simpl; rewrite IH; auto.
Qed.

Lemma filter_keys_nodup {V} (p : string * V -> bool) (d : Dict V) :
  dict_wf d -> NoDup (map fst (filter p d)).
Proof.
  unfold dict_wf. induction d as [|[k v] d IH]; simpl; intros H; [constructor|].
  inversion H as [|? ? Hn Hd]; subst.
  destruct (p (k, v)); simpl; auto.
  constructor; auto.
  intros Hin. apply Hn. apply in_map_iff in Hin. destruct Hin as [[k' v'] [E Hin]].
  apply filter_In in Hin. simpl in E. subst. apply in_map_iff. exists (k, v'). tauto.
Qed.

(** ** The monad *)

Lemma mapM_logged {A B} (f : A -> M B) (g : A -> B) (ev : A -> event) l :
  (forall a, In a l -> forall tr, f a tr = (inr (g a), tr ++ [ev a])) ->
  forall tr, mapM f l tr = (inr (map g l), tr ++ map ev l).
Proof.
  induction l as [|a l IH]; intros Hf tr; simpl.
  - unfold ret. now rewrite app_nil_r.
  - unfold bind. rewrite (Hf a) by now left.
    rewrite IH by (intros; apply Hf; now right).
    unfold ret. rewrite <- app_assoc. reflexivity.
Qed.

Lemma mapM_silent {A B} (f : A -> M B) (g : A -> B) l :
  (forall a, In a l -> forall tr, f a tr = (inr (g a), tr)) ->
  forall tr, mapM f l tr = (inr (map g l), tr).
Proof.
  induction l as [|a l IH]; intros Hf tr; simpl; auto.
  unfold bind. rewrite (Hf a) by now left.
  rewrite IH by (intros; apply Hf; now right). reflexivity.
Qed.

(** When every item either returns or raises [e], without logging, and
    one item raises, the whole loop raises [e]. *)
Lemma mapM_raises {A B} (f : A -> M B) (e : Exception) l :
  (forall a, In a l -> forall tr, (exists b, f a tr = (inr b, tr)) \/ f a tr = (inl e, tr)) ->
  (exists a, In a l /\ forall tr, f a tr = (inl e, tr)) ->
  forall tr, mapM f l tr = (inl e, tr).
Proof.
  induction l as [|a l IH]; intros Hf [a0 [Hin Ha0]] tr; [destruct Hin|].
  simpl. unfold bind.
  destruct (Hf a (or_introl eq_refl) tr) as [[b Hb]|Hb]; rewrite Hb; [|reflexivity].
  destruct Hin as [->|Hin].
  - rewrite Ha0 in Hb. discriminate.
  - rewrite IH; [reflexivity| |exists a0; auto].
    intros a1 H1. apply Hf. now right.
Qed.

(** A loop that keeps the key of each item returns the keys it was given. *)
Lemma mapM_keys {A B} (f : string -> A -> M B) l : forall tr l' tr',
  mapM (fun kv => b <- f (fst kv) (snd kv) ;; ret (fst kv, b)) l tr = (inr l', tr') ->
  map fst l' = map fst l.
Proof.
  induction l as [|a l IH]; intros tr l' tr'; simpl.
  - unfold ret. intros [= <- _]. reflexivity.
  - unfold bind at 1 2. destruct (f (fst a) (snd a) tr) as [[e|b] tr1]; [discriminate|].
    unfold ret at 1. unfold bind.
    destruct (mapM _ l tr1) as [[e|bs] tr2] eqn:E; [discriminate|].
    unfold ret. intros [= <- _]. simpl. f_equal. eapply IH, E.
Qed.

Lemma dict_comprehension_keys {A B} (f : string -> A -> M B) (d : Dict A) tr d' tr' :
  dict_wf d -> dict_comprehension f d tr = (inr d', tr') ->
  keys d' = keys d /\ dict_wf d'.
Proof.
  unfold dict_comprehension, bind, items. intros Hwf.
  destruct (mapM _ d tr) as [[e|kvs] tr1] eqn:E; [discriminate|].
  unfold ret. intros [= <- _].
  apply mapM_keys in E.
  assert (Hn : NoDup (map fst kvs)) by (rewrite E; exact Hwf).
  rewrite dict_of_nodup by exact Hn. split; [exact E|exact Hn].
Qed.

(** ** [get_distances] *)

Lemma nanmin_ok dm tr :
  ravel dm <> [] -> nanmin dm tr = (inr (reduce_fmin (ravel dm)), tr).
Proof.
  unfold nanmin, reduce_fmin. destruct (ravel dm); [congruence|reflexivity].
Qed.

Lemma nanmin_empty dm tr : ravel dm = [] -> nanmin dm tr = (inl ValueError_fmin, tr).
Proof.
  unfold nanmin. intros ->. reflexivity.
Qed.

Lemma masked_ravel_nil target hit :
  ravel (masked_matrix target hit) = [] <-> positions target = [] /\ positions hit = [].
Proof.
  rewrite ravel_nil. destruct (masked_shape target hit) as [-> ->].
  unfold GetNumAtoms.
  destruct (positions target), (positions hit); simpl; split;
    intros H; try (destruct H; discriminate); auto; lia.
Qed.

(** Lines 26-33: with the target in the pool, the matrices are built and
    blanked without an exception; what is left is the reduction. *)
Lemma get_distances_unfold target_name hitdex target tr :
  dict_wf hitdex ->
  dict_get hitdex target_name = Some target ->
  get_distances target_name hitdex tr =
  dict_comprehension (fun name dm => nanmin dm)
    (map (fun kv => (fst kv, masked_matrix target (snd kv))) hitdex)
    (tr ++ distance_calls target hitdex).
Proof.
  intros Hwf Hget. unfold get_distances, dict_getitem. rewrite Hget.
  unfold bind at 1. unfold ret at 1.
  unfold bind at 1. unfold dict_comprehension at 1. unfold bind at 1. unfold items.
  rewrite (mapM_logged _
             (fun kv => (fst kv, distance_matrix (CombineMols target (snd kv))))
             (fun kv => Get3DDistanceMatrix_called (CombineMols target (snd kv)))).
  2:{ intros a _ tr0. unfold Get3DDistanceMatrix, bind, tell, ret. reflexivity. }
  unfold ret at 1.
  rewrite dict_of_nodup by (rewrite map_map; exact Hwf).
  rewrite map_map. cbn [fst snd].
  unfold bind.
  fold (distance_calls target hitdex).
  change (fun x : string * Mol =>
            (fst x, blank_self_reflections (GetNumAtoms target)
                      (distance_matrix (CombineMols target (snd x)))))
    with (fun kv : string * Mol => (fst kv, masked_matrix target (snd kv))).
  destruct (dict_comprehension _ _ _) as [[e|d] tr1]; reflexivity.
Qed.

(** The distances, when the target has an atom: no exception, and for each
    pool entry the reduction of its masked array. *)
Lemma get_distances_ok target_name hitdex target tr :
  dict_wf hitdex ->
  dict_get hitdex target_name = Some target ->
  positions target <> [] ->
  get_distances target_name hitdex tr =
  (inr (map (fun kv => (fst kv, reduce_fmin (ravel (masked_matrix target (snd kv))))) hitdex),
   tr ++ distance_calls target hitdex).
Proof.
  intros Hwf Hget Hne.
  rewrite (get_distances_unfold _ _ target) by assumption.
  unfold dict_comprehension, bind, items.
  rewrite (mapM_silent _ (fun kv => (fst kv, reduce_fmin (ravel (snd kv))))).
  2:{ intros [k dm] Hin tr0. apply in_map_iff in Hin.
      destruct Hin as [[k' hit] [[= <- <-] _]]. cbn [fst snd].
      unfold bind. rewrite nanmin_ok; [reflexivity|].
      rewrite masked_ravel_nil. tauto. }
  unfold ret. rewrite map_map. cbn [fst snd].
  rewrite dict_of_nodup by (rewrite map_map; exact Hwf).
  reflexivity.
Qed.

(** The distances, when the target has no atom: the reduction of the
    target's own entry is over an array without items. *)
Lemma get_distances_empty_target target_name hitdex target tr :
  dict_wf hitdex ->
  dict_get hitdex target_name = Some target ->
  positions target = [] ->
  get_distances target_name hitdex tr =
  (inl ValueError_fmin, tr ++ distance_calls target hitdex).
Proof.
  intros Hwf Hget He.
  rewrite (get_distances_unfold _ _ target) by assumption.
  unfold dict_comprehension, items. unfold bind at 1.
  rewrite (mapM_raises _ ValueError_fmin); [reflexivity| |].
  - intros [k dm] Hin tr0. apply in_map_iff in Hin.
    destruct Hin as [[k' hit] [[= <- <-] _]]. cbn [fst snd]. unfold bind.
    destruct (ravel (masked_matrix target hit)) eqn:E.
    + right. rewrite nanmin_empty by exact E. reflexivity.
    + left. rewrite nanmin_ok by congruence. eexists. reflexivity.
  - exists (target_name, masked_matrix target target). split.
    + apply in_map_iff. exists (target_name, target). split; [reflexivity|].
      apply dict_get_in, Hget.
    + intros tr0. cbn [fst snd]. unfold bind.
      rewrite nanmin_empty; [reflexivity|]. apply masked_ravel_nil. auto.
Qed.

Lemma get_distances_absent target_name hitdex tr :
  dict_get hitdex target_name = None ->
  get_distances target_name hitdex tr = (inl (mkExc KeyError (repr_str target_name)), tr).
Proof.
  intros H. unfold get_distances, dict_getitem. rewrite H. reflexivity.
Qed.

(** Whenever [get_distances] returns, it returns one distance per pool
    key, in the order of the pool. *)
Lemma get_distances_keys target_name hitdex tr d tr' :
  dict_wf hitdex ->
  get_distances target_name hitdex tr = (inr d, tr') ->
  keys d = keys hitdex /\ dict_wf d.
Proof.
  intros Hwf H.
  destruct (dict_get hitdex target_name) as [target|] eqn:Hget.
  - rewrite (get_distances_unfold _ _ target) in H by assumption.
    apply dict_comprehension_keys in H.
    + unfold keys in *. rewrite map_map in H. exact H.
    + unfold dict_wf, keys. rewrite map_map. exact Hwf.
  - rewrite get_distances_absent in H by assumption. discriminate.
Qed.

(** ** [get_close_names] *)

Lemma get_close_names_unfold target_name hitdex t tr :
  get_close_names target_name hitdex t tr =
  match get_distances target_name hitdex tr with
  | (inl e, tr') => (inl e, tr')
  | (inr distances, tr') =>
    (inr (keys (dict_of (filter (fun kv => PrimFloat.leb (snd kv) t) distances))), tr')
  end.
Proof.
  unfold get_close_names, bind, ret, items.
  destruct (get_distances target_name hitdex tr) as [[e|d] tr']; reflexivity.
Qed.

(** The names returned are the pool keys that qualify, in pool order. *)
Lemma get_close_names_filter target_name hitdex t tr d tr' :
  dict_wf hitdex ->
  get_distances target_name hitdex tr = (inr d, tr') ->
  get_close_names target_name hitdex t tr =
  (inr (filter (qualifies d t) (keys hitdex)), tr').
Proof.
  intros Hwf H. rewrite get_close_names_unfold, H.
  destruct (get_distances_keys _ _ _ _ _ Hwf H) as [Hk Hd].
  rewrite dict_of_nodup by (apply filter_keys_nodup; exact Hd).
  rewrite (keys_filter_items (fun v => PrimFloat.leb v t)) by exact Hd.
  rewrite Hk. reflexivity.
Qed.

(** ** The target against itself *)

Lemma outcome_eq {A} (c : M A) r tr : c [] = (r, tr) -> outcome c = r.
Proof. unfold outcome, run. now intros ->. Qed.

Lemma self_reduce_zero S :
  positions S <> [] -> finite_mol S = true ->
  reduce_fmin (ravel (masked_matrix S S)) = PrimFloat.zero.
Proof.
  intros Hne Hfin. apply reduce_fmin_zero.
  - intros y. apply masked_nonneg.
  - apply in_masked. right.
    destruct (positions S) as [|p ps] eqn:E; [congruence|].
    unfold finite_mol in Hfin. rewrite E in Hfin. simpl in Hfin.
    apply andb_true_iff in Hfin. destruct Hfin as [Hp _].
    exists p, p. repeat split; try now left.
    unfold distance. symmetry. now apply distance_self.
Qed.

Lemma distances_lookup target hitdex name hit :
  dict_get hitdex name = Some hit ->
  dict_get (map (fun kv => (fst kv, reduce_fmin (ravel (masked_matrix target (snd kv)))))
                hitdex) name =
  Some (reduce_fmin (ravel (masked_matrix target hit))).
Proof.
  intros H.
  pose proof (dict_get_map (fun _ h => reduce_fmin (ravel (masked_matrix target h)))
                           hitdex name) as E.
  cbn beta in E. rewrite E, H. reflexivity.
Qed.

Lemma min_inter_structure_distance_ok target hit :
  positions target <> [] \/ positions hit <> [] ->
  min_inter_structure_distance target hit =
  inr (reduce_fmin (ravel (masked_matrix target hit))).
Proof.
  intros H. unfold min_inter_structure_distance. rewrite nanmin_ok; [reflexivity|].
  rewrite masked_ravel_nil. tauto.
Qed.

(** The Distance Engine is the entry [get_distances] computes. *)
Lemma get_distances_entry target_name hitdex target name hit :
  dict_wf hitdex ->
  dict_get hitdex target_name = Some target ->
  positions target <> [] ->
  dict_get hitdex name = Some hit ->
  exists distances d,
    outcome (get_distances target_name hitdex) = inr distances /\
    dict_get distances name = Some d /\
    min_inter_structure_distance target hit = inr d.
Proof.
  intros Hwf Ht Hne Hh.
  exists (map (fun kv => (fst kv, reduce_fmin (ravel (masked_matrix target (snd kv))))) hitdex),
         (reduce_fmin (ravel (masked_matrix target hit))).
  split; [|split].
  - eapply outcome_eq. apply get_distances_ok; eassumption.
  - now apply distances_lookup.
  - apply min_inter_structure_distance_ok. now left.
Qed.

Lemma in_keys_of_get {V} (d : Dict V) k v : dict_get d k = Some v -> In k (keys d).
Proof.
  intros H. apply dict_get_in in H. apply in_map_iff. exists (k, v). auto.
Qed.

(** C1: for every Structure [S] (it has an atom), the distance of [S] to
    itself is [0]: the Distance Engine gives [0] for the pair [(S, S)],
    [get_distances] records [0] under the target's own name, and
    [get_close_names] returns a list holding the target's name at every
    threshold [t] with [0 <= t]. *)
Theorem self_distance_zero_and_self_match target_name hitdex S :
  Structure S ->
  dict_wf hitdex ->
  dict_get hitdex target_name = Some S ->
  min_inter_structure_distance S S = inr PrimFloat.zero /\
  (exists distances,
      outcome (get_distances target_name hitdex) = inr distances /\
      dict_get distances target_name = Some PrimFloat.zero) /\
  (forall t, PrimFloat.leb PrimFloat.zero t = true ->
             exists names,
               outcome (get_close_names target_name hitdex t) = inr names /\
               In target_name names).
Proof.
  intros [Hne Hfin] Hwf Hget.
  pose proof (self_reduce_zero S Hne Hfin) as Hz.
  pose proof (get_distances_ok target_name hitdex S [] Hwf Hget Hne) as Hd.
  assert (Hl : dict_get
                 (map (fun kv => (fst kv, reduce_fmin (ravel (masked_matrix S (snd kv)))))
                      hitdex) target_name = Some PrimFloat.zero).
  { rewrite (distances_lookup S hitdex target_name S Hget), Hz. reflexivity. }
  split; [|split].
  - rewrite min_inter_structure_distance_ok by now left. now rewrite Hz.
  - eexists. split; [eapply outcome_eq; exact Hd|exact Hl].
  - intros t Ht. eexists. split.
    + eapply outcome_eq. eapply get_close_names_filter; [exact Hwf|exact Hd].
    + apply filter_In. split; [eapply in_keys_of_get; exact Hget|].
      unfold qualifies. rewrite Hl. exact Ht.
Qed.

Ltac nodup_strings :=
  unfold dict_wf; simpl;
  repeat (constructor; [simpl; intuition discriminate|]); constructor.

Lemma self_distance_zero_and_self_match_witness :
  min_inter_structure_distance (origin_atom_mol "T") (origin_atom_mol "T") = inr PrimFloat.zero /\
  (exists distances,
      outcome (get_distances "T" [("T", origin_atom_mol "T")]) = inr distances /\
      dict_get distances "T" = Some PrimFloat.zero) /\
  (forall t, PrimFloat.leb PrimFloat.zero t = true ->
             exists names,
               outcome (get_close_names "T" [("T", origin_atom_mol "T")] t) = inr names /\
               In "T" names).
Proof.
  apply (self_distance_zero_and_self_match "T" [("T", origin_atom_mol "T")] (origin_atom_mol "T")).
  - split; [discriminate|reflexivity].
  - nodup_strings.
  - reflexivity.
Defined.

(** The near/far pool at the threshold 3.0: the target comes first, with
    its distance 0 to itself. *)
Example near_and_far :
  outcome (get_distances "target" scenario1_pool) =
    inr [("target", 0%float); ("near", 1%float); ("far", 10%float)] /\
  outcome (get_close_names "target" scenario1_pool 3) = inr ["target"; "near"].
Proof. split; reflexivity. Qed.

(** ** A pool that holds the target only *)

(** C2, as the code has it: with only the target in the pool (a
    Structure) and the threshold 3.0, [get_close_names] returns the
    target's own name, not an empty list. *)
Theorem only_target_pool_returns_target target_name S :
  Structure S ->
  outcome (get_close_names target_name [(target_name, S)] 3) = inr [target_name].
Proof.
  intros [Hne Hfin].
  assert (Hwf : dict_wf [(target_name, S)]).
  { unfold dict_wf. simpl. constructor; [intros []|constructor]. }
  assert (Hget : dict_get [(target_name, S)] target_name = Some S).
  { simpl. now rewrite String.eqb_refl. }
  eapply outcome_eq.
  rewrite (get_close_names_filter _ _ _ _ _ _ Hwf
             (get_distances_ok target_name _ S [] Hwf Hget Hne)).
  simpl. unfold qualifies. simpl. rewrite String.eqb_refl.
  rewrite (self_reduce_zero S Hne Hfin). reflexivity.
Qed.

Lemma only_target_pool_returns_target_witness :
  outcome (get_close_names "T" [("T", origin_atom_mol "T")] 3) = inr ["T"].
Proof.
  apply (only_target_pool_returns_target "T" (origin_atom_mol "T")).
  split; [discriminate|reflexivity].
Defined.

(** C2 as stated fails: the pool holds only the target, the threshold is
    3.0, and the list returned is not empty. *)
Lemma only_target_pool_not_empty :
  dict_get [("T", origin_atom_mol "T")] "T" = Some (origin_atom_mol "T") /\
  keys [("T", origin_atom_mol "T")] = ["T"] /\
  outcome (get_close_names "T" [("T", origin_atom_mol "T")] 3) <> inr [].
Proof.
  split; [reflexivity|]. split; [reflexivity|].
  vm_compute. discriminate.
Qed.

(** ** Structures without atoms *)

Lemma reduce_all_nan l :
  l <> [] -> (forall y, In y l -> y = np_nan) -> reduce_fmin l = np_nan.
Proof.
  intros Hne Hall. destruct l as [|x xs]; [congruence|]. unfold reduce_fmin.
  destruct (fold_fmin_spec xs x) as [Hin _]. apply Hall, Hin.
Qed.

Lemma empty_candidate_nan target hit :
  positions target <> [] -> positions hit = [] ->
  reduce_fmin (ravel (masked_matrix target hit)) = np_nan.
Proof.
  intros Hne He. apply reduce_all_nan.
  - rewrite masked_ravel_nil. tauto.
  - intros y Hy. apply in_masked in Hy.
    destruct Hy as [[-> _]|[a [b [_ [Hb _]]]]]; [reflexivity|].
    rewrite He in Hb. destruct Hb.
Qed.

(** C3, as the code has it: [get_distances] has no check of the atom
    counts. A target without atoms makes the reduction of its own entry
    raise [ValueError] (numpy's, not an [AppError]); a candidate without
    atoms, the target having some, raises nothing: its distance is NaN,
    and [get_close_names] leaves the candidate out at every threshold. *)
Theorem zero_atom_structures target_name hitdex target name hit :
  dict_wf hitdex ->
  dict_get hitdex target_name = Some target ->
  dict_get hitdex name = Some hit ->
  (positions target = [] ->
   outcome (get_distances target_name hitdex) = inl ValueError_fmin) /\
  (positions target <> [] -> positions hit = [] ->
   min_inter_structure_distance target hit = inr np_nan /\
   (exists distances,
       outcome (get_distances target_name hitdex) = inr distances /\
       dict_get distances name = Some np_nan) /\
   (forall t, exists names,
         outcome (get_close_names target_name hitdex t) = inr names /\
         ~ In name names)).
Proof.
  intros Hwf Ht Hh. split.
  - intros He. eapply outcome_eq. apply get_distances_empty_target; eassumption.
  - intros Hne He.
    pose proof (empty_candidate_nan target hit Hne He) as Hn.
    pose proof (get_distances_ok target_name hitdex target [] Hwf Ht Hne) as Hd.
    assert (Hl : dict_get
                   (map (fun kv => (fst kv, reduce_fmin (ravel (masked_matrix target (snd kv)))))
                        hitdex) name = Some np_nan).
    { rewrite (distances_lookup target hitdex name hit Hh), Hn. reflexivity. }
    split; [|split].
    + rewrite min_inter_structure_distance_ok by now left. now rewrite Hn.
    + eexists. split; [eapply outcome_eq; exact Hd|exact Hl].
    + intros t. eexists. split.
      * eapply outcome_eq. eapply get_close_names_filter; [exact Hwf|exact Hd].
      * intros Hin. apply filter_In in Hin. destruct Hin as [_ Hq].
        unfold qualifies in Hq. rewrite Hl in Hq.
        rewrite leb_nan_l in Hq by reflexivity. discriminate.
Qed.

Lemma zero_atom_structures_witness :
  (positions (origin_atom_mol "T") = [] ->
   outcome (get_distances "T" pool_with_empty_candidate) = inl ValueError_fmin) /\
  (positions (origin_atom_mol "T") <> [] -> positions (no_atom_mol "E") = [] ->
   min_inter_structure_distance (origin_atom_mol "T") (no_atom_mol "E") = inr np_nan /\
   (exists distances,
       outcome (get_distances "T" pool_with_empty_candidate) = inr distances /\
       dict_get distances "E" = Some np_nan) /\
   (forall t, exists names,
         outcome (get_close_names "T" pool_with_empty_candidate t) = inr names /\
         ~ In "E" names)).
Proof.
  apply (zero_atom_structures "T" pool_with_empty_candidate
                              (origin_atom_mol "T") "E" (no_atom_mol "E")).
  - unfold pool_with_empty_candidate. nodup_strings.
  - reflexivity.
  - reflexivity.
Defined.

(** C3 as stated fails: the candidate ["E"] has zero atoms, and the
    Distance Engine returns NaN for it instead of raising. *)
Lemma zero_atom_candidate_returns_nan :
  GetNumAtoms (no_atom_mol "E") = 0 /\
  min_inter_structure_distance (origin_atom_mol "T") (no_atom_mol "E") = inr np_nan /\
  outcome (get_distances "T" pool_with_empty_candidate) =
    inr [("T", PrimFloat.zero); ("E", np_nan)] /\
  forall e, outcome (get_distances "T" pool_with_empty_candidate) <> inl e.
Proof.
  split; [reflexivity|]. split; [reflexivity|]. split; [reflexivity|].
  intros e. vm_compute. discriminate.
Qed.

(** ** The response envelope *)

(** Whatever the wrapped function raises, [error_sanitized_call] raises an
    [AppError] that carries the class name of the original in its text. *)
Lemma error_sanitized_call_raises {Inputs} (self : FauxInterfaceFactory Inputs) inputs e tr tr' :
  self_fun self inputs tr = (inl e, tr') ->
  error_sanitized_call self inputs tr =
  (inl (mkExc AppError (class_name (exc_class e) ++ ": " ++ exc_str e)), tr').
Proof.
  intros H. unfold error_sanitized_call, try_except, bind. rewrite H. reflexivity.
Qed.

(** So the payload of [__call__] is tagged ["AppError"], also for a
    [UserError] and for an [IneffectiveSettingsError]. *)
Lemma call_error_type_always_AppError {Inputs} (self : FauxInterfaceFactory Inputs)
      inputs e tr tr' :
  self_fun self inputs tr = (inl e, tr') ->
  FauxInterfaceFactory_call self inputs tr =
  (inr (mkOutput "error"
                 (PyDict [("error_type", PyStr "AppError");
                          ("msg", PyStr (class_name (exc_class e) ++ ": " ++ exc_str e))])
                 "show_toast"), tr').
Proof.
  intros H. unfold FauxInterfaceFactory_call, try_except, bind.
  rewrite (error_sanitized_call_raises self inputs e tr tr' H). reflexivity.
Qed.

(** C4 fails on the code: [main] raises [UserError] for a target that is
    not in the pool, and [IneffectiveSettingsError] for a threshold that
    nothing passes, and the envelope tags both payloads ["AppError"]. *)
Theorem envelope_tags_user_faults_as_AppError :
  outcome (main_call request_unknown_target) =
    inl (mkExc UserError "No such X target_name") /\
  outcome (FauxInterfaceFactory_call (mkFactory main_call) request_unknown_target) =
    inr (mkOutput "error"
                  (PyDict [("error_type", PyStr "AppError");
                           ("msg", PyStr "UserError: No such X target_name")])
                  "show_toast") /\
  outcome (main_call request_negative_threshold) =
    inl (mkExc IneffectiveSettingsError "Threshold too strict: no neighbours") /\
  outcome (FauxInterfaceFactory_call (mkFactory main_call) request_negative_threshold) =
    inr (mkOutput "error"
                  (PyDict [("error_type", PyStr "AppError");
                           ("msg", PyStr "IneffectiveSettingsError: Threshold too strict: no neighbours")])
                  "show_toast").
Proof.
  repeat split; reflexivity.
Qed.

(** A request that [main] answers also ends as an error payload: the pair
    [main] returns holds a [JSAction], which [json.dumps] refuses. *)
Example envelope_of_answered_request :
  outcome (main_call (mkKwargs "target" [scenario3_target; scenario3_candidate] None)) =
    inr (PyTuple [PyList [PyStr "target"; PyStr "candidate"]; PyEnum show_LHS_hits]) /\
  outcome (FauxInterfaceFactory_call (mkFactory main_call)
             (mkKwargs "target" [scenario3_target; scenario3_candidate] None)) =
    inr (mkOutput "error"
                  (PyDict [("error_type", PyStr "AppError");
                           ("msg", PyStr "AppError: Invalid output")])
                  "show_toast").
Proof. split; reflexivity. Qed.

(** ** Symmetry *)

Lemma masked_sym A B :
  positions A <> [] ->
  reduce_fmin (ravel (masked_matrix A B)) = reduce_fmin (ravel (masked_matrix B A)).
Proof.
  intros HA. apply reduce_fmin_ext.
  - rewrite masked_ravel_nil. tauto.
  - intros y. apply masked_nonneg.
  - intros y. rewrite !in_masked. split.
    + intros [[-> H]|[a [b [Ha [Hb ->]]]]].
      * left. split; [reflexivity|lia].
      * right. exists b, a. repeat split; auto. apply distance_sym.
    + intros [[-> H]|[b [a [Hb [Ha ->]]]]].
      * left. split; [reflexivity|lia].
      * right. exists a, b. repeat split; auto. apply distance_sym.
Qed.

(** C5: for Structures [A] and [B] with at least one atom each, the
    Distance Engine gives the same float for [(A, B)] and for [(B, A)];
    in a pool that holds both, the distance [get_distances] records for
    [B] with [A] as target is the one it records for [A] with [B] as
    target. *)
Theorem distance_engine_symmetric hitdex name_A A name_B B :
  dict_wf hitdex ->
  dict_get hitdex name_A = Some A ->
  dict_get hitdex name_B = Some B ->
  positions A <> [] ->
  positions B <> [] ->
  min_inter_structure_distance A B = min_inter_structure_distance B A /\
  exists from_A from_B d,
    outcome (get_distances name_A hitdex) = inr from_A /\
    outcome (get_distances name_B hitdex) = inr from_B /\
    dict_get from_A name_B = Some d /\
    dict_get from_B name_A = Some d /\
    min_inter_structure_distance A B = inr d.
Proof.
  intros Hwf HA HB HnA HnB.
  pose proof (masked_sym A B HnA) as Hs.
  split.
  - rewrite !min_inter_structure_distance_ok by now left. now rewrite Hs.
  - do 2 eexists. exists (reduce_fmin (ravel (masked_matrix A B))).
    split; [eapply outcome_eq; apply (get_distances_ok name_A hitdex A []); assumption|].
    split; [eapply outcome_eq; apply (get_distances_ok name_B hitdex B []); assumption|].
    split; [now apply distances_lookup|].
    split; [rewrite Hs; now apply distances_lookup|].
    apply min_inter_structure_distance_ok. now left.
Qed.

Lemma distance_engine_symmetric_witness :
  min_inter_structure_distance scenario3_target scenario3_candidate =
  min_inter_structure_distance scenario3_candidate scenario3_target /\
  exists from_A from_B d,
    outcome (get_distances "target" scenario3_pool) = inr from_A /\
    outcome (get_distances "candidate" scenario3_pool) = inr from_B /\
    dict_get from_A "candidate" = Some d /\
    dict_get from_B "target" = Some d /\
    min_inter_structure_distance scenario3_target scenario3_candidate = inr d.
Proof.
  apply (distance_engine_symmetric scenario3_pool "target" scenario3_target
                                   "candidate" scenario3_candidate).
  - unfold scenario3_pool. nodup_strings.
  - reflexivity.
  - reflexivity.
  - discriminate.
  - discriminate.
Defined.

(** ** Thresholds *)

(** C6: for a fixed pool and target and thresholds [t1 < t2], every name
    [get_close_names] returns at [t1] it returns at [t2]; and when it
    raises at one threshold it raises the same exception at the other. *)
Theorem find_within_monotone target_name hitdex t1 t2 :
  PrimFloat.ltb t1 t2 = true ->
  match outcome (get_close_names target_name hitdex t1),
        outcome (get_close_names target_name hitdex t2) with
  | inr names1, inr names2 => incl names1 names2
  | inl e1, inl e2 => e1 = e2
  | _, _ => False
  end.
Proof.
  intros Hlt. unfold outcome, run. rewrite !get_close_names_unfold.
  destruct (get_distances target_name hitdex []) as [[e|d] tr]; simpl; [reflexivity|].
  intros k Hk. apply (proj2 (in_keys_dict_of _ _)).
  apply (proj1 (in_keys_dict_of _ _)) in Hk.
  apply in_map_iff in Hk. destruct Hk as [[k' v] [E Hin]].
  apply filter_In in Hin. destruct Hin as [Hin Hle]. simpl in E, Hle. subst k'.
  apply in_map_iff. exists (k, v). split; [reflexivity|].
  apply filter_In. split; [exact Hin|]. simpl.
  eapply leb_ltb_trans; eassumption.
Qed.

Lemma find_within_monotone_witness :
  match outcome (get_close_names "target" scenario3_pool 1),
        outcome (get_close_names "target" scenario3_pool 2) with
  | inr names1, inr names2 => incl names1 names2
  | inl e1, inl e2 => e1 = e2
  | _, _ => False
  end.
Proof.
  apply (find_within_monotone "target" scenario3_pool 1 2).
  reflexivity.
Defined.

#[local] Set Warnings "-inexact-float".

(** C7: a candidate whose minimum distance equals the threshold is
    returned (the comparison is [<=]); with the target [{(0,0,0),(0,0,5)}]
    and the candidate [{(0,0,2)}] the distance is 2.0, the candidate is
    returned at the threshold 2.0 and is not returned at 1.999. *)
Theorem threshold_is_inclusive :
  (forall target_name hitdex t distances name d,
      outcome (get_distances target_name hitdex) = inr distances ->
      dict_get distances name = Some d ->
      PrimFloat.eqb d t = true ->
      exists names,
        outcome (get_close_names target_name hitdex t) = inr names /\ In name names) /\
  min_inter_structure_distance scenario3_target scenario3_candidate = inr 2%float /\
  outcome (get_close_names "target" scenario3_pool 2) = inr ["target"; "candidate"] /\
  outcome (get_close_names "target" scenario3_pool 1.999) = inr ["target"].
Proof.
  split; [|repeat split; reflexivity].
  intros target_name hitdex t distances name d Hd Hget Heq.
  unfold outcome, run in *. rewrite get_close_names_unfold.
  destruct (get_distances target_name hitdex []) as [[e|d0] tr]; simpl in *; [discriminate|].
  injection Hd as ->.
  eexists. split; [reflexivity|].
  apply (proj2 (in_keys_dict_of _ _)). apply in_map_iff.
  exists (name, d). split; [reflexivity|].
  apply filter_In. split; [now apply dict_get_in|].
  simpl. now apply eqb_leb.
Qed.

Lemma threshold_is_inclusive_witness :
  exists names,
    outcome (get_close_names "target" scenario3_pool 2) = inr names /\ In "candidate" names.
Proof.
  apply (proj1 threshold_is_inclusive "target" scenario3_pool 2%float
               [("target", 0%float); ("candidate", 2%float)] "candidate" 2%float).
  - reflexivity.
  - reflexivity.
  - reflexivity.
Defined.

(** ** The adaptor *)

Lemma keys_hitdex_of sdfh name :
  In name (keys (hitdex_of sdfh)) <-> In name (map GetProp_Name sdfh).
Proof.
  unfold hitdex_of. rewrite (in_keys_dict_of _ name), map_map. reflexivity.
Qed.

Lemma hitdex_of_wf sdfh : dict_wf (hitdex_of sdfh).
Proof. apply dict_of_wf. Qed.

(** C8: when no molecule of the input is named [target_name], [main]
    raises [UserError] and the log of calls into the distance routine is
    left as it was: no distance is computed. *)
Theorem main_rejects_unknown_target target_name sdfh distance_threshold tr :
  ~ In target_name (map GetProp_Name sdfh) ->
  main target_name sdfh distance_threshold tr =
  (inl (mkExc UserError ("No such " ++ target_name ++ " target_name")), tr).
Proof.
  intros H. unfold main.
  destruct (dict_contains (hitdex_of sdfh) target_name) eqn:E; [|reflexivity].
  exfalso. apply H. apply keys_hitdex_of. apply dict_contains_spec. exact E.
Qed.

Lemma main_rejects_unknown_target_witness :
  main "X" [scenario3_target; scenario3_candidate] 3 [] =
  (inl (mkExc UserError "No such X target_name"), []).
Proof.
  apply (main_rejects_unknown_target "X" [scenario3_target; scenario3_candidate] 3%float []).
  simpl. intuition discriminate.
Defined.

(** For contrast: with the target in the pool, [main] does call the
    distance routine, once per pool entry. *)
Lemma main_known_target_calls target_name sdfh distance_threshold target :
  dict_get (hitdex_of sdfh) target_name = Some target ->
  calls (main target_name sdfh distance_threshold) =
  distance_calls target (hitdex_of sdfh).
Proof.
  intros Hget. unfold calls, run, main, dict_contains. rewrite Hget. cbn [negb].
  unfold bind. rewrite get_close_names_unfold.
  destruct (positions target) as [|p ps] eqn:E.
  - rewrite (get_distances_empty_target _ _ target) by (auto using hitdex_of_wf).
    reflexivity.
  - rewrite (get_distances_ok _ _ target) by (auto using hitdex_of_wf; congruence).
    simpl. destruct (Nat.eqb _ 0); reflexivity.
Qed.

(** C9: when the target is in the pool and [get_close_names] returns an
    empty list, [main] raises [IneffectiveSettingsError]. *)
Theorem main_empty_result_is_ineffective target_name sdfh distance_threshold :
  In target_name (map GetProp_Name sdfh) ->
  outcome (get_close_names target_name (hitdex_of sdfh) distance_threshold) = inr [] ->
  outcome (main target_name sdfh distance_threshold) =
  inl (mkExc IneffectiveSettingsError "Threshold too strict: no neighbours").
Proof.
  intros Hin Hempty. unfold outcome, run, main in *.
  apply keys_hitdex_of, dict_contains_spec in Hin. rewrite Hin. cbn [negb].
  unfold bind.
  destruct (get_close_names target_name (hitdex_of sdfh) distance_threshold [])
    as [[e|names] tr]; simpl in Hempty; [discriminate|].
  injection Hempty as ->. reflexivity.
Qed.

Lemma main_empty_result_is_ineffective_witness :
  outcome (main "target" [scenario3_target; scenario3_candidate] (-1)) =
  inl (mkExc IneffectiveSettingsError "Threshold too strict: no neighbours").
Proof.
  apply (main_empty_result_is_ineffective "target" [scenario3_target; scenario3_candidate]
                                          (-1)%float).
  - simpl. auto.
  - reflexivity.
Defined.

(** ** Order of the result *)

(** C10: the list [get_close_names] returns is the pool's keys, in the
    pool's order, filtered on "the distance recorded for the key is at
    most the threshold"; it has no name twice. And a list is returned
    whenever the target is in the pool and has an atom. *)
Theorem close_names_are_filtered_keys target_name hitdex distance_threshold :
  dict_wf hitdex ->
  (forall names,
      outcome (get_close_names target_name hitdex distance_threshold) = inr names ->
      exists distances,
        outcome (get_distances target_name hitdex) = inr distances /\
        keys distances = keys hitdex /\
        names = filter (qualifies distances distance_threshold) (keys hitdex) /\
        NoDup names) /\
  (forall target,
      dict_get hitdex target_name = Some target ->
      positions target <> [] ->
      exists names,
        outcome (get_close_names target_name hitdex distance_threshold) = inr names).
Proof.
  intros Hwf. split.
  - intros names H. unfold outcome, run in *.
    destruct (get_distances target_name hitdex []) as [[e|d] tr] eqn:Hd.
    + rewrite get_close_names_unfold, Hd in H. discriminate.
    + rewrite (get_close_names_filter _ _ _ _ _ _ Hwf Hd) in H. simpl in H.
      injection H as <-.
      exists d. split; [reflexivity|].
      split; [apply (get_distances_keys _ _ _ _ _ Hwf Hd)|].
      split; [reflexivity|].
      apply NoDup_filter. exact Hwf.
  - intros target Hget Hne. eexists. eapply outcome_eq.
    eapply get_close_names_filter; [exact Hwf|].
    apply (get_distances_ok target_name hitdex target []); assumption.
Qed.

Lemma close_names_are_filtered_keys_witness :
  exists distances,
    outcome (get_distances "target" scenario3_pool) = inr distances /\
    keys distances = keys scenario3_pool /\
    ["target"; "candidate"] = filter (qualifies distances 3) (keys scenario3_pool) /\
    NoDup ["target"; "candidate"].
Proof.
  apply (proj1 (close_names_are_filtered_keys "target" scenario3_pool 3%float
                  ltac:(unfold scenario3_pool; nodup_strings))).
  reflexivity.
Defined.

(** * Further properties of the code *)

(** ** What [get_distances] returns and when *)

(** When [get_distances] returns, the target is in the pool and has an
    atom, and the result and the log are the ones of [get_distances_ok]. *)
Lemma get_distances_returns target_name hitdex tr d tr' :
  dict_wf hitdex ->
  get_distances target_name hitdex tr = (inr d, tr') ->
  exists target,
    dict_get hitdex target_name = Some target /\
    positions target <> [] /\
    d = map (fun kv => (fst kv, reduce_fmin (ravel (masked_matrix target (snd kv))))) hitdex /\
    tr' = tr ++ distance_calls target hitdex.
Proof.
  intros Hwf H.
  destruct (dict_get hitdex target_name) as [target|] eqn:Hget.
  - exists target. split; [reflexivity|].
    destruct (positions target) as [|p ps] eqn:E.
    + rewrite (get_distances_empty_target _ _ target) in H by assumption. discriminate.
    + assert (Hne : positions target <> []) by congruence.
      rewrite (get_distances_ok _ _ target tr Hwf Hget Hne) in H.
      injection H as <- <-. rewrite <- E. auto.
  - rewrite get_distances_absent in H by assumption. discriminate.
Qed.

(** X1: a target that is not a key of the pool: [get_distances] raises
    [KeyError] with the name, before any distance matrix is asked for, and
    [get_close_names] passes the exception on. *)
Theorem missing_target_is_KeyError target_name hitdex distance_threshold tr :
  ~ In target_name (keys hitdex) ->
  get_distances target_name hitdex tr =
    (inl (mkExc KeyError (repr_str target_name)), tr) /\
  get_close_names target_name hitdex distance_threshold tr =
    (inl (mkExc KeyError (repr_str target_name)), tr).
Proof.
  intros H. apply dict_get_none in H.
  rewrite get_close_names_unfold, get_distances_absent by exact H. auto.
Qed.

Lemma missing_target_is_KeyError_witness :
  get_distances "X" scenario3_pool [] = (inl (mkExc KeyError "'X'"), []) /\
  get_close_names "X" scenario3_pool 3 [] = (inl (mkExc KeyError "'X'"), []).
Proof.
  apply (missing_target_is_KeyError "X" scenario3_pool 3%float []).
  simpl. intuition discriminate.
Defined.

(** X2: with the target in the pool, [get_distances] asks RDKit for exactly
    one distance matrix per pool entry, in pool order, each for the target
    combined with that entry; this holds whether the reduction then
    raises or not, and [get_close_names] adds no call. *)
Theorem one_matrix_per_pool_entry target_name hitdex target distance_threshold tr :
  dict_wf hitdex ->
  dict_get hitdex target_name = Some target ->
  snd (get_distances target_name hitdex tr) = tr ++ distance_calls target hitdex /\
  snd (get_close_names target_name hitdex distance_threshold tr) =
    tr ++ distance_calls target hitdex /\
  List.length (distance_calls target hitdex) = List.length hitdex.
Proof.
  intros Hwf Hget.
  assert (H : snd (get_distances target_name hitdex tr) = tr ++ distance_calls target hitdex).
  { destruct (positions target) as [|p ps] eqn:E.
    - now rewrite (get_distances_empty_target _ _ target) by assumption.
    - rewrite (get_distances_ok _ _ target) by (auto; congruence). reflexivity. }
  split; [exact H|]. split.
  - rewrite get_close_names_unfold.
    destruct (get_distances target_name hitdex tr) as [[e|d] tr']; exact H.
  - unfold distance_calls. apply length_map.
Qed.

Lemma one_matrix_per_pool_entry_witness :
  snd (get_distances "T" pool_with_empty_candidate []) =
    [] ++ distance_calls (origin_atom_mol "T") pool_with_empty_candidate /\
  snd (get_close_names "T" pool_with_empty_candidate 3 []) =
    [] ++ distance_calls (origin_atom_mol "T") pool_with_empty_candidate /\
  List.length (distance_calls (origin_atom_mol "T") pool_with_empty_candidate) =
    List.length pool_with_empty_candidate.
Proof.
  apply (one_matrix_per_pool_entry "T" pool_with_empty_candidate (origin_atom_mol "T")
                                   3%float []).
  - unfold pool_with_empty_candidate. nodup_strings.
  - reflexivity.
Defined.

Lemma reduce_fmin_in l : l <> [] -> In (reduce_fmin l) l.
Proof.
  destruct l as [|x xs]; [congruence|]. intros _.
  apply (fold_fmin_spec xs x).
Qed.

(** X3: no distance is negative: every float [get_distances] records is NaN
    or at least [+0]. *)
Theorem distances_never_negative target_name hitdex distances name d :
  dict_wf hitdex ->
  outcome (get_distances target_name hitdex) = inr distances ->
  In (name, d) distances ->
  PrimFloat.is_nan d = true \/ PrimFloat.leb PrimFloat.zero d = true.
Proof.
  intros Hwf H Hin. unfold outcome, run in H.
  destruct (get_distances target_name hitdex []) as [r tr'] eqn:E. simpl in H. subst r.
  destruct (get_distances_returns _ _ _ _ _ Hwf E) as [target [_ [Hne [-> _]]]].
  apply in_map_iff in Hin. destruct Hin as [[k hit] [[= <- <-] _]].
  assert (Hnn : nonneg_or_nan (reduce_fmin (ravel (masked_matrix target hit)))).
  { apply (masked_nonneg target hit), reduce_fmin_in.
    rewrite masked_ravel_nil. tauto. }
  destruct (PrimFloat.is_nan _) eqn:N; [now left|right].
  now apply zero_leb_nonneg.
Qed.

Lemma distances_never_negative_witness :
  PrimFloat.is_nan 2 = true \/ PrimFloat.leb PrimFloat.zero 2 = true.
Proof.
  apply (distances_never_negative "target" scenario3_pool
           [("target", 0%float); ("candidate", 2%float)] "candidate" 2%float).
  - unfold scenario3_pool. nodup_strings.
  - reflexivity.
  - simpl. auto.
Defined.

(** X4: the number returned is the least of the distances between an atom of
    the target and an atom of the candidate: it is one of them and it is
    below every one of them that is a number. It is NaN only when every
    such distance is NaN. Distances inside one structure play no part. *)
Theorem engine_returns_least_cross_distance target hit :
  positions target <> [] ->
  positions hit <> [] ->
  exists d,
    min_inter_structure_distance target hit = inr d /\
    ((PrimFloat.is_nan d = false /\
      (exists a b, In a (positions target) /\ In b (positions hit) /\ d = distance a b) /\
      (forall a b, In a (positions target) -> In b (positions hit) ->
                   PrimFloat.is_nan (distance a b) = false ->
                   PrimFloat.leb d (distance a b) = true)) \/
     (PrimFloat.is_nan d = true /\
      forall a b, In a (positions target) -> In b (positions hit) ->
                  PrimFloat.is_nan (distance a b) = true)).
Proof.
  intros Ht Hh.
  exists (reduce_fmin (ravel (masked_matrix target hit))).
  split; [apply min_inter_structure_distance_ok; now left|].
  assert (Hcross : forall a b, In a (positions target) -> In b (positions hit) ->
                               In (distance a b) (ravel (masked_matrix target hit))).
  { intros a b Ha Hb. apply in_masked. right. exists a, b. auto. }
  destruct (ravel (masked_matrix target hit)) as [|x xs] eqn:E.
  { exfalso. apply masked_ravel_nil in E. tauto. }
  unfold reduce_fmin.
  destruct (fold_fmin_spec xs x) as [Hin [[N A]|[N L]]].
  - right. split; [exact N|]. intros a b Ha Hb. apply A, Hcross; assumption.
  - left. split; [exact N|]. split.
    + rewrite <- E in Hin. apply in_masked in Hin.
      destruct Hin as [[Hnan _]|Hd]; [|exact Hd].
      rewrite Hnan in N. discriminate N.
    + intros a b Ha Hb Nab. apply L; [apply Hcross; assumption|exact Nab].
Qed.

Lemma engine_returns_least_cross_distance_witness :
  exists d,
    min_inter_structure_distance scenario3_target scenario3_candidate = inr d /\
    ((PrimFloat.is_nan d = false /\
      (exists a b, In a (positions scenario3_target) /\
                   In b (positions scenario3_candidate) /\ d = distance a b) /\
      (forall a b, In a (positions scenario3_target) ->
                   In b (positions scenario3_candidate) ->
                   PrimFloat.is_nan (distance a b) = false ->
                   PrimFloat.leb d (distance a b) = true)) \/
     (PrimFloat.is_nan d = true /\
      forall a b, In a (positions scenario3_target) ->
                  In b (positions scenario3_candidate) ->
                  PrimFloat.is_nan (distance a b) = true)).
Proof.
  apply (engine_returns_least_cross_distance scenario3_target scenario3_candidate);
    discriminate.
Defined.

(** X5: the order of the atoms inside the target and inside the candidate
    does not matter: permuting either gives the same outcome, float for
    float (and the same exception when neither has an atom). *)
Theorem engine_ignores_atom_order target target' hit hit' :
  Permutation (positions target) (positions target') ->
  Permutation (positions hit) (positions hit') ->
  min_inter_structure_distance target hit = min_inter_structure_distance target' hit'.
Proof.
  intros Pt Ph.
  assert (Lt : GetNumAtoms target = GetNumAtoms target')
    by (unfold GetNumAtoms; now apply Permutation_length).
  assert (Lh : GetNumAtoms hit = GetNumAtoms hit')
    by (unfold GetNumAtoms; now apply Permutation_length).
  destruct (ravel (masked_matrix target hit)) as [|x xs] eqn:E.
  - assert (E' : ravel (masked_matrix target' hit') = []).
    { apply ravel_nil. apply ravel_nil in E.
      destruct (masked_shape target hit) as [S0 S1].
      destruct (masked_shape target' hit') as [S0' S1'].
      rewrite S0' , S1', <- Lt, <- Lh, <- S0. rewrite S1 in E. rewrite S0 in *. tauto. }
    unfold min_inter_structure_distance. now rewrite !nanmin_empty.
  - assert (Hne : ravel (masked_matrix target hit) <> []) by congruence.
    assert (Hne' : positions target' <> [] \/ positions hit' <> []).
    { rewrite masked_ravel_nil in Hne.
      destruct (positions target') eqn:E1; destruct (positions hit') eqn:E2;
        try (left; discriminate); try (right; discriminate).
      apply Permutation_sym, Permutation_nil in Pt.
      apply Permutation_sym, Permutation_nil in Ph. tauto. }
    rewrite min_inter_structure_distance_ok by (rewrite masked_ravel_nil in Hne;
      destruct (positions target); destruct (positions hit);
      try (left; discriminate); try (right; discriminate); tauto).
    rewrite min_inter_structure_distance_ok by exact Hne'.
    f_equal. apply reduce_fmin_ext; [exact Hne|apply masked_nonneg|].
    intros y. rewrite !in_masked, <- Lt, <- Lh. split.
    + intros [H|[a [b [Ha [Hb ->]]]]]; [now left|right].
      exists a, b. repeat split; eauto using Permutation_in.
    + intros [H|[a [b [Ha [Hb ->]]]]]; [now left|right].
      exists a, b. repeat split; eauto using Permutation_in, Permutation_sym.
Qed.

Lemma engine_ignores_atom_order_witness :
  min_inter_structure_distance scenario3_target scenario3_candidate =
  min_inter_structure_distance (mkMol "target" [mkPoint 0 0 5; mkPoint 0 0 0])
                               scenario3_candidate.
Proof.
  apply (engine_ignores_atom_order scenario3_target
           (mkMol "target" [mkPoint 0 0 5; mkPoint 0 0 0])
           scenario3_candidate scenario3_candidate).
  - simpl. apply perm_swap.
  - apply Permutation_refl.
Defined.

(** X6: the distance recorded for a candidate depends on the target and on
    that candidate only: two pools that bind the target's name and the
    candidate's name to the same molecules record the same float for the
    candidate, whatever else they hold. *)
Theorem distance_independent_of_rest_of_pool
        target_name target name hit hitdex1 hitdex2 :
  dict_wf hitdex1 ->
  dict_wf hitdex2 ->
  positions target <> [] ->
  dict_get hitdex1 target_name = Some target ->
  dict_get hitdex2 target_name = Some target ->
  dict_get hitdex1 name = Some hit ->
  dict_get hitdex2 name = Some hit ->
  exists distances1 distances2 d,
    outcome (get_distances target_name hitdex1) = inr distances1 /\
    outcome (get_distances target_name hitdex2) = inr distances2 /\
    dict_get distances1 name = Some d /\
    dict_get distances2 name = Some d /\
    min_inter_structure_distance target hit = inr d.
Proof.
  intros W1 W2 Hne T1 T2 H1 H2.
  do 2 eexists. exists (reduce_fmin (ravel (masked_matrix target hit))).
  split; [eapply outcome_eq; apply (get_distances_ok _ _ target []); assumption|].
  split; [eapply outcome_eq; apply (get_distances_ok _ _ target []); assumption|].
  split; [now apply distances_lookup|].
  split; [now apply distances_lookup|].
  apply min_inter_structure_distance_ok. now left.
Qed.

Lemma distance_independent_of_rest_of_pool_witness :
  exists distances1 distances2 d,
    outcome (get_distances "target" scenario1_pool) = inr distances1 /\
    outcome (get_distances "target"
               [("near", mkMol "near" [mkPoint 1 0 0]);
                ("target", mkMol "target" [mkPoint 0 0 0])]) = inr distances2 /\
    dict_get distances1 "near" = Some d /\
    dict_get distances2 "near" = Some d /\
    min_inter_structure_distance (mkMol "target" [mkPoint 0 0 0])
                                 (mkMol "near" [mkPoint 1 0 0]) = inr d.
Proof.
  apply (distance_independent_of_rest_of_pool
           "target" (mkMol "target" [mkPoint 0 0 0]) "near" (mkMol "near" [mkPoint 1 0 0])).
  - unfold scenario1_pool. nodup_strings.
  - nodup_strings.
  - discriminate.
  - reflexivity.
  - reflexivity.
  - reflexivity.
  - reflexivity.
Defined.

(** X7: being a neighbour is mutual: for two pool entries with an atom each,
    [B] is returned for the target [A] at a threshold exactly when [A] is
    returned for the target [B] at that threshold. *)
Theorem neighbours_are_mutual hitdex name_A A name_B B distance_threshold :
  dict_wf hitdex ->
  dict_get hitdex name_A = Some A ->
  dict_get hitdex name_B = Some B ->
  positions A <> [] ->
  positions B <> [] ->
  exists names_A names_B,
    outcome (get_close_names name_A hitdex distance_threshold) = inr names_A /\
    outcome (get_close_names name_B hitdex distance_threshold) = inr names_B /\
    (In name_B names_A <-> In name_A names_B).
Proof.
  intros Hwf HA HB HnA HnB.
  pose proof (get_distances_ok name_A hitdex A [] Hwf HA HnA) as DA.
  pose proof (get_distances_ok name_B hitdex B [] Hwf HB HnB) as DB.
  do 2 eexists.
  split; [eapply outcome_eq; eapply get_close_names_filter; [exact Hwf|exact DA]|].
  split; [eapply outcome_eq; eapply get_close_names_filter; [exact Hwf|exact DB]|].
  rewrite !filter_In. unfold qualifies.
  rewrite (distances_lookup A hitdex name_B B HB), (distances_lookup B hitdex name_A A HA).
  rewrite (masked_sym A B HnA).
  split; intros [_ H]; (split; [eapply in_keys_of_get; eassumption|exact H]).
Qed.

Lemma neighbours_are_mutual_witness :
  exists names_A names_B,
    outcome (get_close_names "target" scenario3_pool 2) = inr names_A /\
    outcome (get_close_names "candidate" scenario3_pool 2) = inr names_B /\
    (In "candidate" names_A <-> In "target" names_B).
Proof.
  apply (neighbours_are_mutual scenario3_pool "target" scenario3_target
                               "candidate" scenario3_candidate 2%float).
  - unfold scenario3_pool. nodup_strings.
  - reflexivity.
  - reflexivity.
  - discriminate.
  - discriminate.
Defined.

(** ** Thresholds that nothing passes *)

Lemma SFleb_negative x y :
  sign_or_nan false x -> SFltb y (S754_zero false) = true -> SFleb x y = false.
Proof.
  unfold SFltb, SFleb.
  destruct x as [sx|sx| |sx mx ex]; destruct y as [sy|sy| |sy my ey];
    simpl; intros Hx Hy; subst; try discriminate; try reflexivity;
    destruct sy; try discriminate; reflexivity.
Qed.

Lemma leb_negative d t :
  nonneg_or_nan d -> PrimFloat.ltb t PrimFloat.zero = true -> PrimFloat.leb d t = false.
Proof.
  unfold nonneg_or_nan. rewrite ltb_spec, leb_spec, Prim2SF_zero. apply SFleb_negative.
Qed.

Lemma filter_none {A} (f : A -> bool) l :
  (forall x, In x l -> f x = false) -> filter f l = [].
Proof.
  induction l as [|a l IH]; simpl; intros H; auto.
  rewrite (H a) by now left. apply IH. intros x Hx. apply H. now right.
Qed.

(** X8: a threshold that is negative or NaN passes no name: whenever
    [get_close_names] returns, it returns the empty list. *)
Theorem negative_or_nan_threshold_passes_nothing target_name hitdex distance_threshold names :
  dict_wf hitdex ->
  PrimFloat.ltb distance_threshold PrimFloat.zero = true \/
  PrimFloat.is_nan distance_threshold = true ->
  outcome (get_close_names target_name hitdex distance_threshold) = inr names ->
  names = [].
Proof.
  intros Hwf Ht H. unfold outcome, run in H.
  destruct (get_distances target_name hitdex []) as [[e|d] tr'] eqn:E.
  - rewrite get_close_names_unfold, E in H. discriminate.
  - rewrite (get_close_names_filter _ _ _ _ _ _ Hwf E) in H. simpl in H.
    injection H as <-.
    destruct (get_distances_returns _ _ _ _ _ Hwf E) as [target [_ [Hne [Hd _]]]].
    apply filter_none. intros k Hk.
    unfold qualifies. destruct (dict_get d k) as [v|] eqn:G; [|reflexivity].
    destruct Ht as [Ht|Ht]; [|now apply leb_nan_r].
    apply leb_negative; [|exact Ht].
    apply dict_get_in in G. rewrite Hd in G.
    apply in_map_iff in G. destruct G as [[k' hit] [[= <- <-] _]].
    apply (masked_nonneg target hit), reduce_fmin_in.
    rewrite masked_ravel_nil. tauto.
Qed.

Lemma negative_or_nan_threshold_passes_nothing_witness : @nil string = [].
Proof.
  apply (negative_or_nan_threshold_passes_nothing "target" scenario3_pool (-1)%float []).
  - unfold scenario3_pool. nodup_strings.
  - left. reflexivity.
  - reflexivity.
Defined.

(** ** The pool [main] and [read_file] build *)

Lemma dict_get_set {V} (d : Dict V) k v k' :
  dict_get (dict_set d k v) k' = if String.eqb k' k then Some v else dict_get d k'.
Proof.
  induction d as [|[k0 v0] d IH]; simpl; [reflexivity|].
  destruct (String.eqb_spec k k0) as [->|Hne]; simpl.
  - destruct (String.eqb k' k0); reflexivity.
  - rewrite IH. destruct (String.eqb_spec k' k0) as [->|Hne'].
    + destruct (String.eqb_spec k0 k); [congruence|reflexivity].
    + reflexivity.
Qed.

Lemma fold_dict_set_get {V} (kvs : list (string * V)) k : forall acc,
  dict_get (fold_left (fun d kv => dict_set d (fst kv) (snd kv)) kvs acc) k =
  fold_left (fun found kv => if String.eqb k (fst kv) then Some (snd kv) else found)
            kvs (dict_get acc k).
Proof.
  induction kvs as [|[k0 v0] kvs IH]; intros acc; simpl; [reflexivity|].
  rewrite IH, dict_get_set. reflexivity.
Qed.

Lemma fold_left_map {A B C} (f : C -> B -> C) (g : A -> B) l : forall c,
  fold_left f (map g l) c = fold_left (fun c a => f c (g a)) l c.
Proof.
  induction l as [|a l IH]; intros c; simpl; auto.
Qed.

Lemma hitdex_of_lookup sdfh name :
  dict_get (hitdex_of sdfh) name = last_named name sdfh.
Proof.
  unfold hitdex_of, dict_of, last_named.
  rewrite fold_dict_set_get, fold_left_map. reflexivity.
Qed.

(** X9: when molecules of the file share a name, the pool has the name once
    and binds it to the last of them; the pool holds exactly the names of
    the file. [main] (line 17) and [read_file] (line 23) build the same
    pool. *)
Theorem pool_binds_last_molecule_of_a_name sdfh name :
  dict_get (hitdex_of sdfh) name = last_named name sdfh /\
  read_file sdfh = hitdex_of sdfh /\
  dict_wf (hitdex_of sdfh) /\
  (In name (keys (hitdex_of sdfh)) <-> In name (map GetProp_Name sdfh)).
Proof.
  split; [apply hitdex_of_lookup|].
  split; [reflexivity|]. split; [apply hitdex_of_wf|apply keys_hitdex_of].
Qed.

(** ** The outcomes of [main] *)

(** X10: [main] ends in one of four ways: [UserError] when no molecule has the
    target's name; numpy's [ValueError] when the target has no atom;
    [IneffectiveSettingsError] when the filter returns the empty list; and
    otherwise the non-empty list of [get_close_names] with the action
    [show_LHS_hits]. In particular the [KeyError] of [get_distances] cannot
    come out of [main], and a returned list is never empty. *)
Theorem main_outcomes target_name sdfh distance_threshold :
  match outcome (main target_name sdfh distance_threshold) with
  | inl e =>
    (e = mkExc UserError ("No such " ++ target_name ++ " target_name") /\
     ~ In target_name (map GetProp_Name sdfh)) \/
    (e = ValueError_fmin /\
     exists target, last_named target_name sdfh = Some target /\ positions target = []) \/
    (e = mkExc IneffectiveSettingsError "Threshold too strict: no neighbours" /\
     outcome (get_close_names target_name (hitdex_of sdfh) distance_threshold) = inr [])
  | inr (names, act) =>
    names <> [] /\ act = show_LHS_hits /\
    outcome (get_close_names target_name (hitdex_of sdfh) distance_threshold) = inr names
  end.
Proof.
  pose proof (hitdex_of_lookup sdfh target_name) as Hlast.
  pose proof (hitdex_of_wf sdfh) as Hwf.
  pose proof (keys_hitdex_of sdfh target_name) as Hkeys.
  unfold outcome, run, main, dict_contains.
  destruct (dict_get (hitdex_of sdfh) target_name) as [target|] eqn:Hget; cbn [negb].
  - unfold bind.
    destruct (positions target) as [|p ps] eqn:E.
    + rewrite get_close_names_unfold.
      rewrite (get_distances_empty_target _ _ target) by assumption. simpl.
      right. left. split; [reflexivity|]. exists target. split; [congruence|exact E].
    + assert (Hne : positions target <> []) by congruence.
      rewrite (get_close_names_filter _ _ _ _ _ _ Hwf
                 (get_distances_ok target_name _ target [] Hwf Hget Hne)).
      destruct (filter _ (keys (hitdex_of sdfh))) as [|n ns] eqn:F; simpl.
      * right. right. split; reflexivity.
      * split; [discriminate|]. split; reflexivity.
  - simpl. left. split; [reflexivity|].
    rewrite <- Hkeys. now apply dict_get_none.
Qed.

(** X11: a request whose target is a Structure of the file, with a threshold
    [t >= 0], is always answered: [main] returns the names with the
    action [show_LHS_hits], and the target's own name is among them, so
    "Threshold too strict" cannot be raised for it. *)
Theorem main_answers_valid_request target_name sdfh distance_threshold S :
  last_named target_name sdfh = Some S ->
  Structure S ->
  PrimFloat.leb PrimFloat.zero distance_threshold = true ->
  exists names,
    outcome (main target_name sdfh distance_threshold) = inr (names, show_LHS_hits) /\
    In target_name names.
Proof.
  intros Hlast [Hne Hfin] Ht.
  pose proof (hitdex_of_lookup sdfh target_name) as Hl.
  pose proof (hitdex_of_wf sdfh) as Hwf.
  rewrite Hlast in Hl.
  pose proof (get_distances_ok target_name _ S [] Hwf Hl Hne) as Hd.
  assert (Hin : In target_name
                   (filter (qualifies
                              (map (fun kv => (fst kv,
                                               reduce_fmin (ravel (masked_matrix S (snd kv)))))
                                   (hitdex_of sdfh)) distance_threshold)
                           (keys (hitdex_of sdfh)))).
  { apply filter_In. split; [eapply in_keys_of_get; exact Hl|].
    unfold qualifies. rewrite (distances_lookup S _ target_name S Hl).
    rewrite (self_reduce_zero S Hne Hfin). exact Ht. }
  eexists. split; [|exact Hin].
  unfold outcome, run, main, dict_contains. rewrite Hl. cbn [negb]. unfold bind.
  rewrite (get_close_names_filter _ _ _ _ _ _ Hwf Hd).
  destruct (filter _ (keys (hitdex_of sdfh))) as [|n ns]; [destruct Hin|reflexivity].
Qed.

Lemma main_answers_valid_request_witness :
  exists names,
    outcome (main "a" file_with_duplicate 3) = inr (names, show_LHS_hits) /\
    In "a" names.
Proof.
  apply (main_answers_valid_request "a" file_with_duplicate 3%float
                                    (mkMol "a" [mkPoint 9 0 0])).
  - reflexivity.
  - split; [discriminate|reflexivity].
  - reflexivity.
Defined.

(** ** More on the response envelope *)

(** X12: whatever exception the wrapped function raises, of whatever
    class, [error_sanitized_call] turns it into an [AppError] whose text is
    the original class name, a colon and the original text, and
    [__call__] does not raise: it returns an ["error"] payload tagged
    ["AppError"] with that text and the action [show_toast]. *)
Theorem call_wraps_any_exception {Inputs} (self : FauxInterfaceFactory Inputs)
        inputs e tr tr' :
  self_fun self inputs tr = (inl e, tr') ->
  error_sanitized_call self inputs tr =
    (inl (mkExc AppError (class_name (exc_class e) ++ ": " ++ exc_str e)), tr') /\
  FauxInterfaceFactory_call self inputs tr =
    (inr (mkOutput "error"
                   (PyDict [("error_type", PyStr "AppError");
                            ("msg", PyStr (class_name (exc_class e) ++ ": " ++ exc_str e))])
                   "show_toast"), tr').
Proof.
  intros H. split; [now apply error_sanitized_call_raises|].
  unfold FauxInterfaceFactory_call, try_except, bind.
  rewrite (error_sanitized_call_raises self inputs e tr tr' H). reflexivity.
Qed.

Lemma call_wraps_any_exception_witness :
  error_sanitized_call (mkFactory main_call)
    (mkKwargs "E" [no_atom_mol "E"] None) [] =
    (inl (mkExc AppError
            "ValueError: zero-size array to reduction operation fmin which has no identity"),
     distance_calls (no_atom_mol "E") [("E", no_atom_mol "E")]) /\
  FauxInterfaceFactory_call (mkFactory main_call)
    (mkKwargs "E" [no_atom_mol "E"] None) [] =
    (inr (mkOutput "error"
                   (PyDict [("error_type", PyStr "AppError");
                            ("msg", PyStr "ValueError: zero-size array to reduction operation fmin which has no identity")])
                   "show_toast"),
     distance_calls (no_atom_mol "E") [("E", no_atom_mol "E")]).
Proof.
  apply (call_wraps_any_exception (mkFactory main_call)
           (mkKwargs "E" [no_atom_mol "E"] None) ValueError_fmin []).
  reflexivity.
Defined.

Lemma error_sanitized_call_invalid {Inputs} (self : FauxInterfaceFactory Inputs)
      inputs out tr tr' :
  self_fun self inputs tr = (inr out, tr') ->
  is_valid_json out = false ->
  error_sanitized_call self inputs tr = (inl (mkExc AppError "AppError: Invalid output"), tr').
Proof.
  intros H Hj. unfold error_sanitized_call, try_except, bind. rewrite H, Hj. reflexivity.
Qed.

Lemma error_sanitized_call_valid {Inputs} (self : FauxInterfaceFactory Inputs)
      inputs out tr tr' :
  self_fun self inputs tr = (inr out, tr') ->
  is_valid_json out = true ->
  error_sanitized_call self inputs tr = (inr out, tr').
Proof.
  intros H Hj. unfold error_sanitized_call, try_except, bind. rewrite H, Hj. reflexivity.
Qed.

(** X13: an output that [json.dumps] refuses is answered with the error payload
    ["AppError: Invalid output"] (the [AppError] raised inside the [try] is
    itself caught and wrapped once more). A pair that ends in a [JSAction],
    which is what [__call__] unpacks, is such an output. *)
Theorem call_rejects_unserializable_output {Inputs} (self : FauxInterfaceFactory Inputs)
        inputs out tr tr' :
  self_fun self inputs tr = (inr out, tr') ->
  is_valid_json out = false \/ (exists res act, out = PyTuple [res; PyEnum act]) ->
  FauxInterfaceFactory_call self inputs tr =
  (inr (mkOutput "error"
                 (PyDict [("error_type", PyStr "AppError");
                          ("msg", PyStr "AppError: Invalid output")])
                 "show_toast"), tr').
Proof.
  intros H Hj.
  assert (Hf : is_valid_json out = false).
  { destruct Hj as [Hj|[res [act ->]]]; [exact Hj|].
    simpl. now rewrite andb_false_r. }
  unfold FauxInterfaceFactory_call, try_except, bind.
  rewrite (error_sanitized_call_invalid self inputs out tr tr' H Hf). reflexivity.
Qed.

Lemma call_rejects_unserializable_output_witness :
  FauxInterfaceFactory_call (mkFactory main_call)
    (mkKwargs "target" [scenario3_target; scenario3_candidate] None) [] =
  (inr (mkOutput "error"
                 (PyDict [("error_type", PyStr "AppError");
                          ("msg", PyStr "AppError: Invalid output")])
                 "show_toast"),
   distance_calls scenario3_target scenario3_pool).
Proof.
  apply (call_rejects_unserializable_output (mkFactory main_call)
           (mkKwargs "target" [scenario3_target; scenario3_candidate] None)
           (PyTuple [PyList [PyStr "target"; PyStr "candidate"]; PyEnum show_LHS_hits])).
  - reflexivity.
  - left. reflexivity.
Defined.

Lemma valid_json_items out l :
  is_valid_json out = true -> py_iter out = Some l ->
  forall x, In x l -> is_valid_json x = true.
Proof.
  destruct out; simpl; try discriminate; intros Hj [= <-] x Hx.
  - apply in_map_iff in Hx. destruct Hx as [c [<- _]]. reflexivity.
  - eapply forallb_forall in Hj; eassumption.
  - eapply forallb_forall in Hj; eassumption.
  - apply in_map_iff in Hx. destruct Hx as [kv [<- _]]. reflexivity.
Qed.

(** X14: for outputs made of [None], strings, floats, lists, tuples, dicts and
    [JSAction] members, [__call__] never returns a ["success"] payload: it
    either returns an ["error"] payload with the action [show_toast], or
    lets a [TypeError], [ValueError] or [AttributeError] escape (a
    serializable output has no [JSAction] to take [.name] of). *)
Theorem call_never_reports_success {Inputs} (self : FauxInterfaceFactory Inputs) inputs tr :
  match fst (FauxInterfaceFactory_call self inputs tr) with
  | inr payload => status payload = "error" /\ action payload = "show_toast"
  | inl e => escapes_call (exc_class e) = true
  end.
Proof.
  destruct (self_fun self inputs tr) as [[e|out] tr'] eqn:H.
  - unfold FauxInterfaceFactory_call, try_except, bind.
    rewrite (error_sanitized_call_raises self inputs e tr tr' H). simpl. auto.
  - destruct (is_valid_json out) eqn:Hj.
    + unfold FauxInterfaceFactory_call, try_except, bind.
      rewrite (error_sanitized_call_valid self inputs out tr tr' H Hj).
      unfold unpack2.
      destruct (py_iter out) as [l|] eqn:Hi; [|reflexivity].
      destruct l as [|a [|b [|c l]]]; try reflexivity.
      unfold ret.
      assert (Hb : is_valid_json b = true).
      { apply (valid_json_items out [a; b] Hj Hi). simpl. auto. }
      cbn [snd]. destruct b; try reflexivity. discriminate Hb.
    + unfold FauxInterfaceFactory_call, try_except, bind.
      rewrite (error_sanitized_call_invalid self inputs out tr tr' H Hj). simpl. auto.
Qed.

(** ** [front_end_fields] *)

Lemma mapM_raises_first {A B} (f : A -> M B) (g : A -> B) e l1 a l2 :
  (forall x, In x l1 -> forall tr, f x tr = (inr (g x), tr)) ->
  (forall tr, f a tr = (inl e, tr)) ->
  forall tr, mapM f (l1 ++ a :: l2) tr = (inl e, tr).
Proof.
  induction l1 as [|x l1 IH]; intros H1 Ha tr; simpl; unfold bind.
  - now rewrite Ha.
  - rewrite (H1 x) by now left.
    rewrite IH; [reflexivity| |exact Ha].
    intros y Hy. apply H1. now right.
Qed.

Lemma field_annotations_no_return annotations :
  ~ In "return" (keys (field_annotations annotations)).
Proof.
  unfold field_annotations, items, keys. intros H.
  apply in_map_iff in H. destruct H as [[k v] [E H]]. simpl in E. subst k.
  apply filter_In in H. destruct H as [_ H]. simpl in H. discriminate H.
Qed.

(** X15: when every annotated parameter is a [str], an [int] or a [float],
    [front_end_fields] returns one field per parameter, in the order of
    the annotations, each the template of its type filled with the
    parameter's name; the ["return"] annotation gives no field, whatever
    its type. *)
Theorem front_end_fields_lists_parameters annotations tr :
  dict_wf annotations ->
  forallb (fun kv => supported (snd kv)) (field_annotations annotations) = true ->
  exists fields,
    front_end_fields annotations tr = (inr fields, tr) /\
    fields = map (fun kv => (fst kv, html_field (snd kv) (fst kv)))
                 (field_annotations annotations) /\
    keys fields = filter (fun k => negb (String.eqb k "return")) (keys annotations) /\
    ~ In "return" (keys fields).
Proof.
  intros Hwf Hs. eexists. split; [|split; [reflexivity|]].
  - unfold front_end_fields, dict_comprehension, bind.
    fold (field_annotations annotations). unfold items.
    rewrite (mapM_silent _ (fun kv => (fst kv, html_field (snd kv) (fst kv)))).
    + unfold ret. rewrite dict_of_nodup; [reflexivity|].
      rewrite map_map. cbn [fst]. apply filter_keys_nodup. exact Hwf.
    + intros [k v] Hin tr0. cbn [fst snd].
      assert (Hv : supported v = true).
      { rewrite forallb_forall in Hs. apply (Hs (k, v) Hin). }
      unfold supported, html_field in *. unfold bind.
      destruct (python2html_mapping v); [reflexivity|discriminate].
  - assert (Hk : keys (map (fun kv : string * PyType => (fst kv, html_field (snd kv) (fst kv)))
                           (field_annotations annotations)) =
                 keys (field_annotations annotations)).
    { unfold keys. rewrite map_map. reflexivity. }
    rewrite Hk. split; [|apply field_annotations_no_return].
    unfold field_annotations, items, keys.
    clear. induction annotations as [|[k v] l IH]; simpl; [reflexivity|].
    destruct (negb (String.eqb k "return")); simpl; now rewrite IH.
Qed.

Lemma front_end_fields_lists_parameters_witness :
  exists fields,
    front_end_fields main_annotations [] = (inr fields, []) /\
    fields = map (fun kv => (fst kv, html_field (snd kv) (fst kv)))
                 (field_annotations main_annotations) /\
    keys fields = filter (fun k => negb (String.eqb k "return")) (keys main_annotations) /\
    ~ In "return" (keys fields).
Proof.
  apply (front_end_fields_lists_parameters main_annotations []).
  - unfold main_annotations. nodup_strings.
  - reflexivity.
Defined.

(** X16: the first annotated parameter (other than ["return"]) whose type is
    not [str], [int] or [float] makes [front_end_fields] raise [KeyError]
    with that type: no field list is returned. *)
Theorem front_end_fields_unsupported_type annotations before key value after tr :
  field_annotations annotations = before ++ (key, value) :: after ->
  forallb (fun kv => supported (snd kv)) before = true ->
  supported value = false ->
  front_end_fields annotations tr = (inl (mkExc KeyError (PyType_repr value)), tr).
Proof.
  intros Hsplit Hb Hv.
  unfold front_end_fields, dict_comprehension.
  fold (field_annotations annotations). unfold items. rewrite Hsplit.
  unfold bind at 1.
  rewrite (mapM_raises_first _ (fun kv => (fst kv, html_field (snd kv) (fst kv)))
                             (mkExc KeyError (PyType_repr value))); [reflexivity| |].
  - intros [k v] Hin tr0. cbn [fst snd].
    assert (Hs : supported v = true).
    { rewrite forallb_forall in Hb. apply (Hb (k, v) Hin). }
    unfold supported, html_field in *. unfold bind.
    destruct (python2html_mapping v); [reflexivity|discriminate].
  - intros tr0. cbn [fst snd]. unfold supported in Hv. unfold bind.
    destruct (python2html_mapping value); [discriminate|reflexivity].
Qed.

Lemma front_end_fields_unsupported_type_witness :
  front_end_fields [("name", ty_str); ("flag", ty_other "<class 'bool'>"); ("n", ty_int)] [] =
  (inl (mkExc KeyError "<class 'bool'>"), []).
Proof.
  apply (front_end_fields_unsupported_type
           [("name", ty_str); ("flag", ty_other "<class 'bool'>"); ("n", ty_int)]
           [("name", ty_str)] "flag" (ty_other "<class 'bool'>") [("n", ty_int)] []).
  - reflexivity.
  - reflexivity.
  - reflexivity.
Defined.

(** ** The interface around [main] *)

Lemma main_known_target_calls_witness :
  calls (main "target" [scenario3_target; scenario3_candidate] (-1)) =
  distance_calls scenario3_target (hitdex_of [scenario3_target; scenario3_candidate]).
Proof.
  apply (main_known_target_calls "target" [scenario3_target; scenario3_candidate]
                                 (-1)%float scenario3_target).
  reflexivity.
Defined.

Lemma main_call_output inputs tr out tr' :
  main_call inputs tr = (inr out, tr') ->
  exists names act, out = PyTuple [PyList (map PyStr names); PyEnum act].
Proof.
  unfold main_call, bind, ret.
  destruct (main _ _ _ tr) as [[e|[names act]] tr1]; [discriminate|].
  intros [= <- _]. exists names, act. reflexivity.
Qed.

(** X18: the interface made of [main] never raises and never reports
    success: for every request the answer is an ["error"] payload tagged
    ["AppError"] with the action [show_toast] (an exception of [main] is
    wrapped, and an answer of [main] is refused as "Invalid output"). *)
Theorem interface_of_main_always_answers_AppError (inputs : main_kwargs) tr :
  exists msg,
    fst (FauxInterfaceFactory_call (mkFactory main_call) inputs tr) =
    inr (mkOutput "error"
                  (PyDict [("error_type", PyStr "AppError"); ("msg", PyStr msg)])
                  "show_toast").
Proof.
  destruct (main_call inputs tr) as [[e|out] tr'] eqn:H.
  - eexists. unfold FauxInterfaceFactory_call, try_except, bind.
    rewrite (error_sanitized_call_raises (mkFactory main_call) inputs e tr tr' H).
    reflexivity.
  - destruct (main_call_output inputs tr out tr' H) as [names [act ->]].
    eexists. unfold FauxInterfaceFactory_call, try_except, bind.
    rewrite (error_sanitized_call_invalid (mkFactory main_call) inputs _ tr tr' H).
    + reflexivity.
    + simpl. now rewrite andb_false_r.
Qed.
